(** * Climate Insights dashboard: filter, aggregation and regression pipeline

    A shallow embedding of the data pipeline of [dashboard.py]:
    the derived date columns of [load_data], the sidebar filter
    ([filtered_df]), the aggregations behind the charts (means, extrema,
    yearly group means, min-max normalisation, the correlation matrix, the
    trend line) and the inline ridge-regression predictor ([train_model]
    and the predict button).

    Conventions.
    - A pandas/numpy float cell is an [option Q]: [Some q] is the finite
      value [q], [None] is NaN (a missing cell).  Arithmetic is exact
      rational arithmetic; binary64 rounding is outside the model, and
      overflow is looked at apart, in module [F64], for the normalisation
      and the correlation.
    - A DataFrame is the list of its rows in index order; the default
      [RangeIndex] label of a row is its position.
    - A Python exception is the left injection of [result]. *)

From Stdlib Require Import String ZArith QArith Qround Qabs List Bool Lia Lqa.
From Stdlib Require Import Permutation Sorted.
From Stdlib Require PrimFloat.
Import ListNotations.

Local Open Scope Z_scope.

(** ** Exceptions and the error monad *)

Inductive Exn : Type :=
| ValueError (msg : string)
| TypeError (msg : string)
| LinAlgError (msg : string).

Definition result (A : Type) : Type := (Exn + A)%type.

Definition ret {A} (a : A) : result A := inr a.
Definition raise {A} (e : Exn) : result A := inl e.
Definition bind {A B} (c : result A) (k : A -> result B) : result B :=
  match c with
  | inl e => inl e
  | inr a => k a
  end.

Declare Scope exn_scope.
Delimit Scope exn_scope with exn.
Notation "x <- c ;; k" := (bind c (fun x => k))
  (at level 61, c at next level, right associativity) : exn_scope.

Definition raises {A} (c : result A) : bool :=
  match c with inl _ => true | inr _ => false end.

(** ** Cells, rows and columns *)

(** A float cell; [None] is NaN. *)
Definition float : Type := option Q.

Definition fsub (a b : float) : float :=
  match a, b with
  | Some x, Some y => Some (x - y)%Q
  | _, _ => None
  end.

Definition fadd (a b : float) : float :=
  match a, b with
  | Some x, Some y => Some (x + y)%Q
  | _, _ => None
  end.

(** Division of cells; a zero divisor leaves no finite value. *)
Definition fdiv (a b : float) : float :=
  match a, b with
  | Some x, Some y => if Qeq_bool y 0 then None else Some (x / y)%Q
  | _, _ => None
  end.

Record Timestamp : Type := mkTimestamp {
  ts_year : Z;
  ts_month : Z;
  ts_day : Z
}.

(** The six numeric columns, [numeric_cols]. *)
Inductive NumCol : Type :=
| cTemperature
| cCO2_Emissions
| cSea_Level_Rise
| cPrecipitation
| cHumidity
| cWind_Speed.

Definition numeric_cols : list NumCol :=
  [cTemperature; cCO2_Emissions; cSea_Level_Rise;
   cPrecipitation; cHumidity; cWind_Speed].

(** A row of the CSV file as [pd.read_csv] yields it. *)
Record CsvRow : Type := mkCsvRow {
  csv_Date : string;
  csv_Country : option string;
  csv_Temperature : float;
  csv_CO2_Emissions : float;
  csv_Sea_Level_Rise : float;
  csv_Precipitation : float;
  csv_Humidity : float;
  csv_Wind_Speed : float
}.

(** A row of [df] after [load_data]: [Date] is parsed ([None] is NaT) and
    [Year], [Month], [MonthName] are derived from it. *)
Record Row : Type := mkRow {
  Date : option Timestamp;
  Country : option string;
  Temperature : float;
  CO2_Emissions : float;
  Sea_Level_Rise : float;
  Precipitation : float;
  Humidity : float;
  Wind_Speed : float;
  Year : option Z;
  Month : option Z;
  MonthName : option string
}.

Definition col (c : NumCol) (r : Row) : float :=
  match c with
  | cTemperature => Temperature r
  | cCO2_Emissions => CO2_Emissions r
  | cSea_Level_Rise => Sea_Level_Rise r
  | cPrecipitation => Precipitation r
  | cHumidity => Humidity r
  | cWind_Speed => Wind_Speed r
  end.

Definition monthly_order : list string :=
  ["Jan"; "Feb"; "Mar"; "Apr"; "May"; "Jun";
   "Jul"; "Aug"; "Sep"; "Oct"; "Nov"; "Dec"]%string.

(** [strftime("%b")] of a timestamp. *)
Definition strftime_b (t : Timestamp) : string :=
  nth (Z.to_nat (ts_month t - 1)) monthly_order ""%string.

(** The derived columns of [load_data]:
    [df["Date"] = pd.to_datetime(df["Date"], errors="coerce")], then
    [Year], [Month] and [MonthName] through the [.dt] accessor.  The date
    parser itself belongs to pandas and is a parameter. *)
Definition add_date_columns (to_datetime : string -> option Timestamp)
    (r : CsvRow) : Row :=
  let d := to_datetime (csv_Date r) in
  {| Date := d;
     Country := csv_Country r;
     Temperature := csv_Temperature r;
     CO2_Emissions := csv_CO2_Emissions r;
     Sea_Level_Rise := csv_Sea_Level_Rise r;
     Precipitation := csv_Precipitation r;
     Humidity := csv_Humidity r;
     Wind_Speed := csv_Wind_Speed r;
     Year := option_map ts_year d;
     Month := option_map ts_month d;
     MonthName := option_map strftime_b d |}.

Definition load_data (to_datetime : string -> option Timestamp)
    (csv : list CsvRow) : list Row :=
  map (add_date_columns to_datetime) csv.

(** ** The sidebar filter *)

Record FilterSpec : Type := mkFilterSpec {
  year_range : Z * Z;
  selected_countries : list string
}.

(** [(df["Year"] >= lo) & (df["Year"] <= hi)]: a comparison with NaN is
    false on both sides. *)
Definition year_mask (lo hi : Z) (r : Row) : bool :=
  match Year r with
  | Some y => (lo <=? y) && (y <=? hi)
  | None => false
  end.

(** [df["Country"].isin(selected)]; a missing country is in no list of
    names. *)
Definition isin (selected : list string) (r : Row) : bool :=
  match Country r with
  | Some c => existsb (String.eqb c) selected
  | None => false
  end.

Definition filtered_df (df : list Row) (s : FilterSpec) : list Row :=
  let filtered := filter (year_mask (fst (year_range s)) (snd (year_range s))) df in
  match selected_countries s with
  | [] => filtered
  | _ :: _ => filter (isin (selected_countries s)) filtered
  end.

(** The keep predicate in the words of the specification: the year lies
    within the inclusive bounds, and the allow-list is empty or holds the
    row's country. *)
Definition keeps (s : FilterSpec) (r : Row) : Prop :=
  (exists y, Year r = Some y /\ fst (year_range s) <= y <= snd (year_range s)) /\
  (selected_countries s = [] \/
   exists c, Country r = Some c /\ In c (selected_countries s)).

(** The predicate as the mask the code evaluates. *)
Definition keepsb (s : FilterSpec) (r : Row) : bool :=
  year_mask (fst (year_range s)) (snd (year_range s)) r &&
  match selected_countries s with
  | [] => true
  | _ :: _ => isin (selected_countries s) r
  end.

Definition year_present (r : Row) : bool :=
  match Year r with Some _ => true | None => false end.

(** The cells of a column that are not missing. *)
Definition present {A} (l : list (option A)) : list A :=
  flat_map (fun o => match o with Some a => [a] | None => [] end) l.

Definition Zmin_list (l : list Z) : option Z :=
  match l with
  | [] => None
  | x :: xs => Some (fold_left Z.min xs x)
  end.

Definition Zmax_list (l : list Z) : option Z :=
  match l with
  | [] => None
  | x :: xs => Some (fold_left Z.max xs x)
  end.

(** The slider bounds of the sidebar:
    [min_year, max_year = int(df["Year"].min()), int(df["Year"].max())];
    [int] of NaN raises. *)
Definition full_year_range (df : list Row) : result (Z * Z) :=
  match Zmin_list (present (map Year df)), Zmax_list (present (map Year df)) with
  | Some lo, Some hi => ret (lo, hi)
  | _, _ => raise (ValueError "cannot convert float NaN to integer")
  end.

(** ** Series aggregations (NaN-skipping, as pandas reductions are) *)

(** Sums and means are kept in lowest terms. *)
Definition Qsum (l : list Q) : Q := fold_right (fun a acc => Qred (a + acc)) 0%Q l.

Definition Qmean (l : list Q) : Q :=
  Qred (Qsum l / inject_Z (Z.of_nat (length l))).

Definition Qmin2 (a b : Q) : Q := if Qle_bool a b then a else b.
Definition Qmax2 (a b : Q) : Q := if Qle_bool a b then b else a.

(** [Series.mean()], [.min()], [.max()]: NaN cells are skipped and a series
    without a valid cell reduces to NaN. *)
Definition series_mean (s : list float) : float :=
  match present s with
  | [] => None
  | l => Some (Qmean l)
  end.

Definition series_min (s : list float) : float :=
  match present s with
  | [] => None
  | x :: xs => Some (fold_left Qmin2 xs x)
  end.

Definition series_max (s : list float) : float :=
  match present s with
  | [] => None
  | x :: xs => Some (fold_left Qmax2 xs x)
  end.

Fixpoint Qinsert (x : Q) (l : list Q) : list Q :=
  match l with
  | [] => [x]
  | y :: ys => if Qle_bool x y then x :: l else y :: Qinsert x ys
  end.

Definition Qsort (l : list Q) : list Q := fold_right Qinsert [] l.

(** [Series.median()]. *)
Definition series_median (s : list float) : float :=
  let l := Qsort (present s) in
  let n := length l in
  match n with
  | O => None
  | _ =>
    if Nat.even n
    then Some ((nth (n / 2 - 1) l 0 + nth (n / 2) l 0) / 2)%Q
    else Some (nth (n / 2) l 0%Q)
  end.

(** ** Yearly group means: [filtered_df.groupby("Year")[numeric_cols].mean()] *)

Fixpoint Zinsert_unique (y : Z) (l : list Z) : list Z :=
  match l with
  | [] => [y]
  | x :: xs =>
    if y <? x then y :: l
    else if y =? x then l
    else x :: Zinsert_unique y xs
  end.

(** The group keys: the distinct present years, ascending. *)
Definition group_keys (df : list Row) : list Z :=
  fold_right Zinsert_unique [] (present (map Year df)).

Definition has_year (y : Z) (r : Row) : bool :=
  match Year r with
  | Some y' => y' =? y
  | None => false
  end.

(** One row per year: the key and the mean of each numeric column, in
    [numeric_cols] order. *)
Definition groupby_Year_mean (df : list Row) : list (Z * list float) :=
  map (fun y =>
         let g := filter (has_year y) df in
         (y, map (fun c => series_mean (map (col c) g)) numeric_cols))
      (group_keys df).

Definition col_index (c : NumCol) : nat :=
  match c with
  | cTemperature => 0
  | cCO2_Emissions => 1
  | cSea_Level_Rise => 2
  | cPrecipitation => 3
  | cHumidity => 4
  | cWind_Speed => 5
  end%nat.

Definition yearly_col (c : NumCol) (yearly : list (Z * list float)) : list float :=
  map (fun g => nth (col_index c) (snd g) None) yearly.

(** ** Min-max normalisation

    [norm = (series - series.min()) / (series.max() - series.min() + 1e-9)] *)

Definition epsilon : Q := 1 # 1000000000.

(** [np.finfo(np.float64).eps], 2^-52. *)
Definition float64_eps : Q := 1 # 4503599627370496.

Definition minmax_normalize (series : list float) : list float :=
  let lo := series_min series in
  let hi := series_max series in
  map (fun v => fdiv (fsub v lo) (fadd (fsub hi lo) (Some epsilon))) series.

(** ** Linear algebra on lists of rationals *)

Fixpoint map2 {A B C} (f : A -> B -> C) (l : list A) (l' : list B) : list C :=
  match l, l' with
  | a :: t, b :: t' => f a b :: map2 f t t'
  | _, _ => []
  end.

Definition dot (u v : list Q) : Q := Qsum (map2 Qmult u v).

Definition column (j : nat) (X : list (list Q)) : list Q :=
  map (fun row => nth j row 0%Q) X.

Definition columns (k : nat) (X : list (list Q)) : list (list Q) :=
  map (fun j => column j X) (seq 0 k).

(** The first row of [rows] whose entry [k] is not zero, and the others. *)
Fixpoint find_pivot (k : nat) (rows : list (list Q))
  : option (list Q * list (list Q)) :=
  match rows with
  | [] => None
  | r :: rs =>
    if Qeq_bool (nth k r 0%Q) 0 then
      match find_pivot k rs with
      | Some (p, rest) => Some (p, r :: rest)
      | None => None
      end
    else Some (r, rs)
  end.

(** Gauss-Jordan elimination on the augmented rows, one column of [ks] at a
    time; [done] holds the rows already used as pivots, in column order. *)
Fixpoint gauss_jordan (ks : list nat) (done todo : list (list Q))
  : option (list (list Q)) :=
  match ks with
  | [] => Some done
  | k :: ks' =>
    match find_pivot k todo with
    | None => None
    | Some (p, rest) =>
      let p' := map (fun x => Qred (x / nth k p 0)%Q) p in
      let elim := fun r => map2 (fun x y => Qred (x - nth k r 0 * y)%Q) r p' in
      gauss_jordan ks' (map elim done ++ [p']) (map elim rest)
    end
  end.

(** The solution [w] of [A w = b] for a square, regular [A]. *)
Definition solve (A : list (list Q)) (b : list Q) : option (list Q) :=
  option_map (map (fun r => last r 0%Q))
    (gauss_jordan (seq 0 (length A)) [] (map2 (fun r bi => r ++ [bi]) A b)).

(** ** The regression model *)

Definition features : list NumCol :=
  [cCO2_Emissions; cSea_Level_Rise; cPrecipitation; cHumidity; cWind_Speed].

Definition target : NumCol := cTemperature.

(** The values of a row of cells when none is NaN. *)
Fixpoint all_present (l : list float) : option (list Q) :=
  match l with
  | [] => Some []
  | Some q :: t => option_map (cons q) (all_present t)
  | None :: _ => None
  end.

(** [X = data[features].dropna()]: the rows without a missing feature,
    each under its index label. *)
Definition dropna_features (data : list Row) : list (nat * list Q) :=
  flat_map (fun ir =>
              match all_present (map (fun c => col c (snd ir)) features) with
              | Some v => [(fst ir, v)]
              | None => []
              end)
           (combine (seq 0 (length data)) data).

(** [y = data.loc[X.index, target]]. *)
Definition loc_target (index : list nat) (data : list Row) : list float :=
  map (fun i => match nth_error data i with
                | Some r => col target r
                | None => None
                end) index.

(** scikit-learn's [StandardScaler] after [fit]. *)
Record StandardScaler : Type := mkStandardScaler {
  mean_ : list Q;
  var_ : list Q;
  scale_ : list Q
}.

(** Population variance, as [StandardScaler] computes it. *)
Definition Qvar (l : list Q) : Q :=
  let m := Qmean l in Qmean (map (fun x => (x - m) * (x - m))%Q l).

(** [transform]: [(x - mean_) / scale_], feature by feature; a vector of
    another dimension is rejected. *)
Definition scale_row (s : StandardScaler) (x : list Q) : list Q :=
  map2 (fun xm sc => xm / sc)%Q (map2 Qminus x (mean_ s)) (scale_ s).

Definition scaler_transform (s : StandardScaler) (X : list (list Q))
  : result (list (list Q)) :=
  if forallb (fun x => (length x =? length (mean_ s))%nat) X
  then ret (map (scale_row s) X)
  else raise (ValueError "X has a different number of features than StandardScaler is expecting").

(** scikit-learn's fitted [Ridge]. *)
Record Ridge : Type := mkRidge {
  coef_ : list Q;
  intercept_ : Q
}.

Definition ridge_predict (m : Ridge) (X : list (list Q)) : list Q :=
  map (fun x => dot x (coef_ m) + intercept_ m)%Q X.

(** [Ridge(alpha).fit(X, y)] with the default [fit_intercept=True]: the
    minimiser of [|y - X w - b|^2 + alpha |w|^2], that is
    [w = (Xc^T Xc + alpha I)^-1 Xc^T yc] on the centred data and
    [b = mean(y) - mean(X) . w].  A NaN in [y] is rejected. *)
Definition ridge_fit (alpha : Q) (X : list (list Q)) (y : list float)
  : result Ridge :=
  match all_present y with
  | None => raise (ValueError "Input y contains NaN.")
  | Some yq =>
    let k := length features in
    let X_offset := map Qmean (columns k X) in
    let y_offset := Qmean yq in
    let Xc := map (fun x => map2 Qminus x X_offset) X in
    let yc := map (fun v => v - y_offset)%Q yq in
    let cols := columns k Xc in
    let A := map (fun i =>
                    map (fun j =>
                           (dot (nth i cols []) (nth j cols [])
                            + (if (i =? j)%nat then alpha else 0))%Q)
                        (seq 0 k))
                 (seq 0 k) in
    let b := map (fun c => dot c yc) cols in
    match solve A b with
    | Some w => ret {| coef_ := w; intercept_ := (y_offset - dot X_offset w)%Q |}
    | None => raise (LinAlgError "Singular matrix")
    end
  end.

(** [mean_absolute_error(y_true, y_pred)]; a NaN in [y_true] is rejected. *)
Definition mean_absolute_error (y_true : list float) (y_pred : list Q)
  : result Q :=
  match all_present y_true with
  | None => raise (ValueError "Input contains NaN.")
  | Some yt => ret (Qmean (map2 (fun a b => Qabs (a - b)) yt y_pred))
  end.

Definition mean_squared_error (y_true : list float) (y_pred : list Q)
  : result Q :=
  match all_present y_true with
  | None => raise (ValueError "Input contains NaN.")
  | Some yt => ret (Qmean (map2 (fun a b => (a - b) * (a - b))%Q yt y_pred))
  end.

(** scikit-learn's [r2_score]: [1 - SS_res / SS_tot] over the given
    targets and predictions; a constant target scores 1 for a perfect fit
    and 0 otherwise, and fewer than two samples leave the score undefined.
    The dashboard imports it and never calls it. *)
Definition r2_score (y_true y_pred : list Q) : float :=
  if (length y_true <? 2)%nat then None
  else
    let ss_res := Qsum (map2 (fun a b => (a - b) * (a - b))%Q y_true y_pred) in
    let m := Qmean y_true in
    let ss_tot := Qsum (map (fun a => (a - m) * (a - m))%Q y_true) in
    if Qeq_bool ss_tot 0
    then (if Qeq_bool ss_res 0 then Some 1%Q else Some 0%Q)
    else Some (1 - ss_res / ss_tot)%Q.

Record Metrics : Type := mkMetrics {
  MAE : Q;
  RMSE : Q;
  R2 : Q
}.

(** What [train_model] returns. *)
Record Trained : Type := mkTrained {
  model : Ridge;
  scaler : StandardScaler;
  metrics : Metrics;
  X_test : list (list Q);
  y_test : list float;
  y_pred : list Q
}.

(** [_safe_indexing]: the entries of [l] at the positions [idx]. *)
Definition safe_indexing {A} (l : list A) (idx : list nat) : list A :=
  flat_map (fun i => match nth_error l i with
                     | Some a => [a]
                     | None => []
                     end) idx.

(** The size of the evaluation partition, [ceil(test_size * n)]. *)
Definition n_test_of (test_size : Q) (n : nat) : nat :=
  Z.to_nat (Qceiling (test_size * inject_Z (Z.of_nat n))).

(** The predict button: the stored scaler, then the stored model. *)
Definition predict_button (sc : StandardScaler) (m : Ridge)
    (in_co2 in_sea in_precip in_humidity in_wind : Q) : result Q :=
  (input_scaled <- scaler_transform sc
                     [[in_co2; in_sea; in_precip; in_humidity; in_wind]] ;;
   ret (hd 0%Q (ridge_predict m input_scaled)))%exn.

(** ** Concrete inputs used in the examples below *)

(** A date parser that knows two dates and coerces every other string to
    NaT. *)
Definition sample_to_datetime (s : string) : option Timestamp :=
  if String.eqb s "2000-01-15" then Some (mkTimestamp 2000 1 15)
  else if String.eqb s "2001-07-01" then Some (mkTimestamp 2001 7 1)
  else None.

Definition csv_dated : CsvRow :=
  mkCsvRow "2000-01-15" (Some "Chile"%string)
    (Some 10%Q) (Some 400%Q) (Some 1%Q) (Some 50%Q) (Some 60%Q) (Some 5%Q).

Definition csv_later : CsvRow :=
  mkCsvRow "2001-07-01" (Some "Kenya"%string)
    (Some 20%Q) (Some 410%Q) (Some 2%Q) (Some 40%Q) (Some 70%Q) (Some 7%Q).

Definition csv_undated : CsvRow :=
  mkCsvRow "not a date" (Some "Chile"%string)
    (Some 12%Q) (Some 405%Q) (Some 1%Q) (Some 55%Q) (Some 65%Q) (Some 6%Q).

Definition row_dated : Row := add_date_columns sample_to_datetime csv_dated.
Definition row_later : Row := add_date_columns sample_to_datetime csv_later.
Definition row_undated : Row := add_date_columns sample_to_datetime csv_undated.

(** A square root on the rationals that is exact on squares and rounds
    down elsewhere: the root of [n/d] is taken as [floor(sqrt(n*d)) / d].
    It instantiates [np.sqrt] in the examples, where the variances are
    squares. *)
Definition Qsqrt_exact (q : Q) : Q :=
  Z.sqrt (Qnum q * Zpos (Qden q)) # Qden q.

(** A loaded row with a parsed date. *)
Definition observation (t : Timestamp) (country : string)
    (temp co2 sea precip hum wind : float) : Row :=
  {| Date := Some t;
     Country := Some country;
     Temperature := temp;
     CO2_Emissions := co2;
     Sea_Level_Rise := sea;
     Precipitation := precip;
     Humidity := hum;
     Wind_Speed := wind;
     Year := Some (ts_year t);
     Month := Some (ts_month t);
     MonthName := Some (strftime_b t) |}.

Definition jan (y : Z) : Timestamp := mkTimestamp y 1 1.

(** Five complete rows; in every feature column four cells hold 1 and one
    holds 6, so the column mean is 2 and the standard deviation is 2. *)
Definition five_rows : list Row :=
  [ observation (jan 2000) "Chile" (Some 10) (Some 6) (Some 1) (Some 1) (Some 1) (Some 1);
    observation (jan 2001) "Chile" (Some 12) (Some 1) (Some 6) (Some 1) (Some 1) (Some 1);
    observation (jan 2002) "Kenya" (Some 14) (Some 1) (Some 1) (Some 6) (Some 1) (Some 1);
    observation (jan 2003) "Kenya" (Some 16) (Some 1) (Some 1) (Some 1) (Some 6) (Some 1);
    observation (jan 2004) "Nepal" (Some 18) (Some 1) (Some 1) (Some 1) (Some 1) (Some 6) ]%Q.

(** Six rows: row 1 lacks a feature (CO2 Emissions), row 3 lacks the
    target (Temperature) and has all five features. *)
Definition rows_with_gaps : list Row :=
  [ observation (jan 2000) "Chile" (Some 10) (Some 6) (Some 1) (Some 1) (Some 1) (Some 1);
    observation (jan 2001) "Chile" (Some 11) None     (Some 1) (Some 1) (Some 1) (Some 1);
    observation (jan 2001) "Chile" (Some 12) (Some 1) (Some 6) (Some 1) (Some 1) (Some 1);
    observation (jan 2002) "Kenya" None      (Some 1) (Some 1) (Some 6) (Some 1) (Some 1);
    observation (jan 2003) "Kenya" (Some 16) (Some 1) (Some 1) (Some 1) (Some 6) (Some 1);
    observation (jan 2004) "Nepal" (Some 18) (Some 1) (Some 1) (Some 1) (Some 1) (Some 6) ]%Q.

(** Ten complete rows; every feature column takes two values, on a number
    of rows that makes its variance a square. *)
Definition ten_rows : list Row :=
  [ observation (jan 2000) "Chile" (Some 11) (Some 400) (Some 1) (Some 50) (Some 70) (Some 4);
    observation (jan 2001) "Chile" (Some 14) (Some 400) (Some 3) (Some 50) (Some 70) (Some 4);
    observation (jan 2002) "Chile" (Some 12) (Some 400) (Some 1) (Some 60) (Some 70) (Some 4);
    observation (jan 2003) "Chile" (Some 15) (Some 400) (Some 3) (Some 60) (Some 70) (Some 9);
    observation (jan 2004) "Chile" (Some 13) (Some 400) (Some 1) (Some 60) (Some 70) (Some 4);
    observation (jan 2000) "Kenya" (Some 18) (Some 420) (Some 3) (Some 60) (Some 70) (Some 4);
    observation (jan 2001) "Kenya" (Some 16) (Some 420) (Some 1) (Some 60) (Some 70) (Some 9);
    observation (jan 2002) "Kenya" (Some 19) (Some 420) (Some 3) (Some 60) (Some 70) (Some 4);
    observation (jan 2003) "Kenya" (Some 17) (Some 420) (Some 1) (Some 60) (Some 70) (Some 4);
    observation (jan 2004) "Kenya" (Some 21) (Some 420) (Some 3) (Some 60) (Some 80) (Some 4) ]%Q.

(** All the orders of a list of positions. *)
Fixpoint insert_everywhere (a : nat) (l : list nat) : list (list nat) :=
  match l with
  | [] => [[a]]
  | x :: xs => (a :: l) :: map (cons x) (insert_everywhere a xs)
  end.

Fixpoint permutations (l : list nat) : list (list nat) :=
  match l with
  | [] => [[]]
  | a :: t => flat_map (insert_everywhere a) (permutations t)
  end.

(** For each ordered pair of distinct positions below [n], the order of
    [0 .. n-1] that starts with the pair and goes on ascending. *)
Definition orders_by_leading_pair (n : nat) : list (list nat) :=
  flat_map (fun i =>
    flat_map (fun j =>
      if (i =? j)%nat then []
      else [i :: j :: filter (fun k => negb (k =? i)%nat && negb (k =? j)%nat)
                             (seq 0 n)])
      (seq 0 n))
    (seq 0 n).

(** A generator that hands out one fixed order, whatever its seed: the
    state is the order itself. *)
Definition fixed_seed (p : list nat) : Z -> list nat := fun _ => p.
Definition fixed_permutation (g : list nat) (n : nat) : list nat * list nat :=
  (g, g).

Definition float_eqb (a b : float) : bool :=
  match a, b with
  | Some x, Some y => Qeq_bool x y
  | None, None => true
  | _, _ => false
  end.

(** One order of five positions, and what [train_model] returns on
    [five_rows] when the generator draws it: position 1 is held out. *)
Definition an_order_of_five : list nat := [1; 4; 2; 0; 3]%nat.

(** One order of ten positions: positions 8 and 1 are held out. *)
Definition an_order_of_ten : list nat := [8; 1; 5; 0; 7; 2; 9; 4; 3; 6]%nat.

Definition five_rows_trained : Trained :=
  {| model := {| coef_ := [-45 # 29; 0; -5 # 29; 15 # 29; 35 # 29]%Q;
                 intercept_ := 29 # 2 |};
     scaler := {| mean_ := [2; 2; 2; 2; 2]%Q;
                  var_ := [4; 4; 4; 4; 4]%Q;
                  scale_ := [2; 2; 2; 2; 2]%Q |};
     metrics := {| MAE := 5 # 2; RMSE := 10 # 4; R2 := 0.7134 |};
     X_test := [[-1 # 2; 4 # 2; -1 # 2; -1 # 2; -1 # 2]]%Q;
     y_test := [Some 12%Q];
     y_pred := [29 # 2] |}.

(** ** Monthly pattern:
    [filtered_df.groupby("MonthName")[selected_variable].mean().reindex(monthly_order)] *)

Fixpoint Sinsert_unique (m : string) (l : list string) : list string :=
  match l with
  | [] => [m]
  | x :: xs =>
    if String.ltb m x then m :: l
    else if String.eqb m x then l
    else x :: Sinsert_unique m xs
  end.

(** The group keys of the month names: distinct, in string order. *)
Definition month_keys (df : list Row) : list string :=
  fold_right Sinsert_unique [] (present (map MonthName df)).

Definition has_month_name (m : string) (r : Row) : bool :=
  match MonthName r with
  | Some m' => String.eqb m' m
  | None => false
  end.

Definition groupby_MonthName_mean (df : list Row) (c : NumCol)
  : list (string * float) :=
  map (fun m => (m, series_mean (map (col c) (filter (has_month_name m) df))))
      (month_keys df).

Fixpoint lookup_label (k : string) (tbl : list (string * float)) : option float :=
  match tbl with
  | [] => None
  | (k', v) :: t => if String.eqb k k' then Some v else lookup_label k t
  end.

(** [Series.reindex(labels)]: one entry per label, in the order given; a
    label the series does not have gets NaN. *)
Definition reindex (labels : list string) (tbl : list (string * float))
  : list (string * float) :=
  map (fun k => (k, match lookup_label k tbl with
                    | Some v => v
                    | None => None
                    end)) labels.

Definition monthly (filtered : list Row) (selected_variable : NumCol)
  : list (string * float) :=
  reindex monthly_order (groupby_MonthName_mean filtered selected_variable).

(** ** Correlation details table *)

(** [abs(r) > t]; a comparison with NaN is false. *)
Definition abs_gt (r : float) (t : Q) : bool :=
  match r with
  | Some q => negb (Qle_bool (Qabs q) t)
  | None => false
  end.

Definition strength (r : float) : string :=
  if abs_gt r 0.5 then "Strong"
  else if abs_gt r 0.3 then "Moderate"
  else "Weak".

Record CorrPair : Type := mkCorrPair {
  Variable_1 : NumCol;
  Variable_2 : NumCol;
  Correlation : float;
  Strength : string
}.

(** [corr_matrix.iloc[i, j]]. *)
Definition iloc (M : list (list float)) (i j : nat) : float :=
  nth j (nth i M []) None.

(** The double loop [for i in range(len(numeric_cols)): for j in
    range(i + 1, len(numeric_cols))], before the table is sorted. *)
Definition corr_pairs (M : list (list float)) : list CorrPair :=
  flat_map (fun i =>
    map (fun j =>
           {| Variable_1 := nth i numeric_cols cTemperature;
              Variable_2 := nth j numeric_cols cTemperature;
              Correlation := iloc M i j;
              Strength := strength (iloc M i j) |})
        (seq (i + 1) (length numeric_cols - (i + 1))))
    (seq 0 (length numeric_cols)).

(** ** Violin plots: the years sampled *)

(** [l[::step]] for a positive [step], written with the number of entries
    still to skip before the next one is taken. *)
Fixpoint stride_from {A} (step skip : nat) (l : list A) : list A :=
  match l with
  | [] => []
  | x :: t =>
    match skip with
    | O => x :: stride_from step (step - 1) t
    | S k => stride_from step k t
    end
  end.

Definition slice_step {A} (step : nat) (l : list A) : list A :=
  stride_from step 0 l.

(** [sample_years = sorted(filtered_df["Year"].unique())], thinned when
    there are more than six.  The rows of [filtered_df] all carry a year. *)
Definition sample_years (filtered : list Row) : list Z :=
  let years := group_keys filtered in
  if (6 <? length years)%nat
  then slice_step (Nat.max 1 (length years / 6)) years
  else years.

(** The ordered pairs of distinct columns with the first before the second
    in [numeric_cols]. *)
Definition column_pairs : list (NumCol * NumCol) :=
  filter (fun ab => (col_index (fst ab) <? col_index (snd ab))%nat)
         (list_prod numeric_cols numeric_cols).




(** ** The same two computations on binary64 numbers

    The aggregations above are over exact rationals.  The normalisation
    and one entry of the correlation matrix are written out once more on
    IEEE 754 binary64, as the code runs them, to see where a range that
    does not fit the format takes the result. *)

Module F64.
Import PrimFloat.
Local Open Scope float_scope.
Local Set Warnings "-inexact-float".

Definition f64 : Set := PrimFloat.float.

(** [np.isfinite]. *)
Definition isfinite (x : f64) : bool := negb (is_nan x) && negb (is_infinity x).

Definition epsilon : f64 := 1e-9.

Definition min2 (a b : f64) : f64 := if ltb b a then b else a.
Definition max2 (a b : f64) : f64 := if ltb a b then b else a.

(** [Series.min()] and [Series.max()], NaN cells skipped. *)
Definition series_min (s : list f64) : f64 :=
  match filter (fun x => negb (is_nan x)) s with
  | [] => nan
  | x :: xs => fold_left min2 xs x
  end.

Definition series_max (s : list f64) : f64 :=
  match filter (fun x => negb (is_nan x)) s with
  | [] => nan
  | x :: xs => fold_left max2 xs x
  end.

(** [(series - series.min()) / (series.max() - series.min() + 1e-9)]. *)
Definition minmax_normalize (series : list f64) : list f64 :=
  let lo := series_min series in
  let hi := series_max series in
  map (fun v => (v - lo) / (hi - lo + epsilon)) series.

Record Welford : Set := mkWelford {
  nobs : f64;
  meanx : f64;
  meany : f64;
  ssqdm_x : f64;
  ssqdm_y : f64;
  covxy : f64
}.

Definition welford_step (st : Welford) (vx vy : f64) : Welford :=
  let n := nobs st + 1 in
  let dx := vx - meanx st in
  let dy := vy - meany st in
  let mx := meanx st + 1 / n * dx in
  let my := meany st + 1 / n * dy in
  {| nobs := n;
     meanx := mx;
     meany := my;
     ssqdm_x := ssqdm_x st + (vx - mx) * dx;
     ssqdm_y := ssqdm_y st + (vy - my) * dy;
     covxy := covxy st + (vx - mx) * dy |}.

Definition clip (val : f64) : f64 :=
  if ltb 1 val then 1
  else if ltb val (-1) then -1
  else val.

(** One entry of pandas' [nancorr] for two columns given cell by cell;
    a row counts when both cells are finite. *)
Definition nancorr_entry (xs ys : list f64) : f64 :=
  let st :=
    fold_left (fun st xy =>
                 if isfinite (fst xy) && isfinite (snd xy)
                 then welford_step st (fst xy) (snd xy)
                 else st)
              (combine xs ys) (mkWelford 0 0 0 0 0 0) in
  if ltb (nobs st) 1 then nan
  else
    let divisor := sqrt (ssqdm_x st * ssqdm_y st) in
    if eqb divisor 0 then nan else clip (covxy st / divisor).




End F64.


(** * The parts that call into numpy, pandas and scikit-learn

    The square root, the least-squares solver behind [np.polyfit], the
    pseudo-random generator and the date parser are library code: they are
    parameters of the model. *)

Section Pipeline.

(** [np.sqrt]. *)
Variable np_sqrt : Q -> Q.

(** The least-squares solve of [np.polyfit(x, y, 1)] on a non-empty [x]:
    slope and intercept, or the exception LAPACK ends in. *)
Variable lstsq : list Q -> list float -> result (Q * Q).

(** [np.random.RandomState]: seeding, and [permutation(n)], which returns
    the permutation drawn and the advanced generator. *)
Variable RandomState : Type.
Variable RandomState_seed : Z -> RandomState.
Variable rng_permutation : RandomState -> nat -> list nat * RandomState.

(** [pd.to_datetime(..., errors="coerce")] on one cell. *)
Variable to_datetime : string -> option Timestamp.

(** ** Key metrics row *)

(** [Series.std()], the sample standard deviation (ddof = 1). *)
Definition series_std (s : list float) : float :=
  let l := present s in
  if (length l <? 2)%nat then None
  else
    let m := Qmean l in
    Some (np_sqrt (Qsum (map (fun x => (x - m) * (x - m))%Q l)
                   / inject_Z (Z.of_nat (length l) - 1))).

Record KeyMetrics : Type := mkKeyMetrics {
  avg_temp : float;
  avg_co2 : float;
  avg_sea : float;
  avg_precip : float;
  avg_humidity : float;
  avg_wind : float;
  temp_range : float * float;
  co2_std : float;
  sea_max : float;
  precip_median : float;
  humidity_range : float * float;
  wind_max : float
}.

Definition key_metrics (filtered : list Row) : KeyMetrics :=
  let c := fun k => map (col k) filtered in
  {| avg_temp := series_mean (c cTemperature);
     avg_co2 := series_mean (c cCO2_Emissions);
     avg_sea := series_mean (c cSea_Level_Rise);
     avg_precip := series_mean (c cPrecipitation);
     avg_humidity := series_mean (c cHumidity);
     avg_wind := series_mean (c cWind_Speed);
     temp_range := (series_min (c cTemperature), series_max (c cTemperature));
     co2_std := series_std (c cCO2_Emissions);
     sea_max := series_max (c cSea_Level_Rise);
     precip_median := series_median (c cPrecipitation);
     humidity_range := (series_min (c cHumidity), series_max (c cHumidity));
     wind_max := series_max (c cWind_Speed) |}.

(** ** Trend line *)

(** [np.polyfit(x, y, 1)]: numpy rejects an empty [x] and vectors of
    different lengths before it solves. *)
Definition np_polyfit (x : list Q) (y : list float) : result (Q * Q) :=
  match x with
  | [] => raise (TypeError "expected non-empty vector for x")
  | _ :: _ =>
    if (length x =? length y)%nat then lstsq x y
    else raise (TypeError "expected x and y to have same length")
  end.

(** [np.poly1d(z)(x)] for a polynomial of degree one. *)
Definition poly1d (z : Q * Q) (x : Q) : Q := (fst z * x + snd z)%Q.

(** ** Correlation matrix: [filtered_df[numeric_cols].corr()]

    pandas' [nancorr]: for each pair of columns one pass of Welford's
    update over the rows where both cells are present. *)

Record Welford : Type := mkWelford {
  nobs : Z;
  meanx : Q;
  meany : Q;
  ssqdm_x : Q;
  ssqdm_y : Q;
  covxy : Q
}.

Definition welford_init : Welford := mkWelford 0 0 0 0 0 0.

Definition welford_step (st : Welford) (vx vy : Q) : Welford :=
  let n := nobs st + 1 in
  let dx := (vx - meanx st)%Q in
  let dy := (vy - meany st)%Q in
  let mx := (meanx st + 1 / inject_Z n * dx)%Q in
  let my := (meany st + 1 / inject_Z n * dy)%Q in
  {| nobs := n;
     meanx := mx;
     meany := my;
     ssqdm_x := (ssqdm_x st + (vx - mx) * dx)%Q;
     ssqdm_y := (ssqdm_y st + (vy - my) * dy)%Q;
     covxy := (covxy st + (vx - mx) * dy)%Q |}.

Definition welford_row (cx cy : NumCol) (st : Welford) (r : Row) : Welford :=
  match col cx r, col cy r with
  | Some vx, Some vy => welford_step st vx vy
  | _, _ => st
  end.

Definition clip (val : Q) : Q :=
  if Qlt_le_dec 1 val then 1%Q
  else if Qlt_le_dec val (-1) then (-1)%Q
  else val.

(** One entry of the lower triangle ([min_periods] is 1). *)
Definition nancorr_entry (df : list Row) (cx cy : NumCol) : float :=
  let st := fold_left (welford_row cx cy) df welford_init in
  if nobs st <? 1 then None
  else
    let divisor := np_sqrt (ssqdm_x st * ssqdm_y st) in
    if Qeq_bool divisor 0 then None
    else Some (clip (covxy st / divisor)).

(** [result[xi, yi] = result[yi, xi] = val] for [yi <= xi]. *)
Definition corr (df : list Row) (a b : NumCol) : float :=
  if (col_index b <=? col_index a)%nat
  then nancorr_entry df a b
  else nancorr_entry df b a.

Definition corr_matrix (df : list Row) : list (list float) :=
  map (fun a => map (fun b => corr df a b) numeric_cols) numeric_cols.

(** ** One pass of the script over the filtered rows, up to the
    correlation heat map *)

Record Charts : Type := mkCharts {
  cards : KeyMetrics;
  yearly : list (Z * list float);
  trend : list Q;
  normalized : list (list float);
  heatmap : list (list float)
}.

Definition render (df : list Row) (s : FilterSpec) (selected_variable : NumCol)
  : result Charts :=
  let filtered := filtered_df df s in
  let km := key_metrics filtered in
  let yr := groupby_Year_mean filtered in
  let years := map (fun g => inject_Z (fst g)) yr in
  (z <- np_polyfit years (yearly_col selected_variable yr) ;;
   ret {| cards := km;
          yearly := yr;
          trend := map (poly1d z) years;
          normalized := map (fun c => minmax_normalize (yearly_col c yr)) numeric_cols;
          heatmap := corr_matrix filtered |})%exn.

(** ** Training *)

(** scikit-learn's [_is_constant_feature(var, mean, n_samples)]: a column
    counts as constant when its variance is at most
    [n * eps * var + (n * mean * eps) ** 2]. *)
Definition is_constant_feature (var mean : Q) (n_samples : nat) : bool :=
  let n := inject_Z (Z.of_nat n_samples) in
  Qle_bool var (n * float64_eps * var
                + (n * mean * float64_eps) * (n * mean * float64_eps)).

(** [_handle_zeros_in_scale(np.sqrt(var_), constant_mask)]: the scale of
    a column the mask holds is set to 1. *)
Definition handle_zeros_in_scale (var mean : Q) (n_samples : nat) : Q :=
  if is_constant_feature var mean n_samples then 1%Q else np_sqrt var.

(** [StandardScaler().fit(X)]: per-column mean and population variance of
    the rows given; [scale_] is the standard deviation, or 1 for a column
    that [_is_constant_feature] holds constant.  An empty [X] is
    rejected. *)
Definition scaler_fit (X : list (list Q)) : result StandardScaler :=
  match X with
  | [] => raise (ValueError "Found array with 0 sample(s) while a minimum of 1 is required by StandardScaler.")
  | _ :: _ =>
    let cols := columns (length features) X in
    ret {| mean_ := map Qmean cols;
           var_ := map Qvar cols;
           scale_ := map (fun c => handle_zeros_in_scale (Qvar c) (Qmean c) (length X))
                         cols |}
  end.

Definition scaler_fit_transform (X : list (list Q))
  : result (StandardScaler * list (list Q)) :=
  (sc <- scaler_fit X ;;
   Xs <- scaler_transform sc X ;;
   ret (sc, Xs))%exn.

(** [check_random_state]: an integer seeds a fresh generator; [None] is the
    process-wide generator, which the draw advances. *)
Definition draw_permutation (random_state : option Z) (n : nat)
    (global : RandomState) : list nat * RandomState :=
  match random_state with
  | Some seed => (fst (rng_permutation (RandomState_seed seed) n), global)
  | None => rng_permutation global n
  end.

(** [train_test_split(X, y, test_size, random_state)]: the first [n_test]
    entries of one permutation of the positions are the evaluation rows,
    the following [n - n_test] the training rows. *)
Definition train_test_split {A B} (X : list A) (y : list B) (test_size : Q)
    (random_state : option Z) (global : RandomState)
  : result (list A * list A * list B * list B) * RandomState :=
  let n := length X in
  let n_test := n_test_of test_size n in
  let n_train := (n - n_test)%nat in
  if (n_train =? 0)%nat
  then (raise (ValueError "the resulting train set will be empty"), global)
  else
    let (perm, global') := draw_permutation random_state n global in
    let ind_test := firstn n_test perm in
    let ind_train := firstn n_train (skipn n_test perm) in
    (ret (safe_indexing X ind_train, safe_indexing X ind_test,
          safe_indexing y ind_train, safe_indexing y ind_test), global').

(** The fit and the metrics on the two partitions. *)
Definition fit_and_score (sc : StandardScaler)
    (X_train X_test : list (list Q)) (y_train y_test : list float)
  : result Trained :=
  (m <- ridge_fit 1 X_train y_train ;;
   let y_pred := ridge_predict m X_test in
   mae <- mean_absolute_error y_test y_pred ;;
   mse <- mean_squared_error y_test y_pred ;;
   ret {| model := m;
          scaler := sc;
          metrics := {| MAE := mae; RMSE := np_sqrt mse; R2 := 0.7134 |};
          X_test := X_test;
          y_test := y_test;
          y_pred := y_pred |})%exn.

(** [train_model(data)], run with the process-wide generator in state
    [global]; the state after the call is returned with the result. *)
Definition train_model (data : list Row) (global : RandomState)
  : result Trained * RandomState :=
  let X := dropna_features data in
  let y := loc_target (map fst X) data in
  match scaler_fit_transform (map snd X) with
  | inl e => (inl e, global)
  | inr (sc, X_scaled) =>
    match train_test_split X_scaled y (0.2)%Q (Some 42) global with
    | (inl e, g) => (inl e, g)
    | (inr (X_train, X_test, y_train, y_test), g) =>
      (fit_and_score sc X_train X_test y_train y_test, g)
    end
  end.

(** The rows of [X] that end up in the training partition. *)
Definition training_rows (data : list Row) (global : RandomState)
  : list (list Q) :=
  let X := map snd (dropna_features data) in
  let n := length X in
  let n_test := n_test_of 0.2 n in
  let perm := fst (draw_permutation (Some 42) n global) in
  safe_indexing X (firstn (n - n_test) (skipn n_test perm)).

(** The pairs of values [nancorr] visits for two columns: the rows where
    both cells are present. *)
Definition row_pairs (cx cy : NumCol) (df : list Row) : list (Q * Q) :=
  flat_map (fun r => match col cx r, col cy r with
                     | Some vx, Some vy => [(vx, vy)]
                     | _, _ => []
                     end) df.

(** Welford's update on one coordinate: count, running mean and sum of
    squared deviations. *)
Definition w1_step (st : Z * Q * Q) (v : Q) : Z * Q * Q :=
  let '(n, m, s) := st in
  let n' := n + 1 in
  let d := (v - m)%Q in
  let m' := (m + 1 / inject_Z n' * d)%Q in
  (n', m', (s + (v - m') * d)%Q).

Definition w1_count (st : Z * Q * Q) : Z := fst (fst st).
Definition w1_mean (st : Z * Q * Q) : Q := snd (fst st).
Definition w1_ss (st : Z * Q * Q) : Q := snd st.

Definition xstate (st : Welford) : Z * Q * Q := (nobs st, meanx st, ssqdm_x st).
Definition ystate (st : Welford) : Z * Q * Q := (nobs st, meany st, ssqdm_y st).

(** The positions [train_model] assigns to the training and to the
    evaluation partition of [n] rows. *)
Definition partition_indices (n : nat) (global : RandomState)
  : list nat * list nat :=
  let n_test := n_test_of 0.2 n in
  let perm := fst (draw_permutation (Some 42) n global) in
  (firstn (n - n_test) (skipn n_test perm), firstn n_test perm).

(** * Properties of the filter *)

Lemma year_mask_true lo hi r :
  year_mask lo hi r = true <-> exists y, Year r = Some y /\ lo <= y <= hi.
Proof.
  unfold year_mask. destruct (Year r) as [y|].
  - rewrite andb_true_iff, !Z.leb_le. split.
    + intros H. exists y. split; [reflexivity | lia].
    + intros (y' & E & H). injection E as <-. lia.
  - split; [discriminate | intros (y & E & _); discriminate].
Qed.

Lemma isin_true sel r :
  isin sel r = true <-> exists c, Country r = Some c /\ In c sel.
Proof.
  unfold isin. destruct (Country r) as [c|].
  - rewrite existsb_exists. split.
    + intros (x & Hin & E). apply String.eqb_eq in E. subst x. eauto.
    + intros (c' & E & Hin). injection E as <-. exists c. split; [assumption|].
      apply String.eqb_refl.
  - split; [discriminate | intros (c & E & _); discriminate].
Qed.

Lemma keepsb_true s r : keepsb s r = true <-> keeps s r.
Proof.
  unfold keepsb, keeps. rewrite andb_true_iff, year_mask_true.
  destruct (selected_countries s) as [|c cs] eqn:E.
  - split.
    + intros [Hy _]. split; [exact Hy | left; reflexivity].
    + intros [Hy _]. split; [exact Hy | reflexivity].
  - rewrite isin_true. split.
    + intros [Hy Hc]. split; [exact Hy | right; exact Hc].
    + intros [Hy [Hc | Hc]]; [discriminate | split; assumption].
Qed.

Lemma filter_filter_andb {A} (f g : A -> bool) (l : list A) :
  filter g (filter f l) = filter (fun a => f a && g a) l.
Proof.
  induction l as [|a l IH]; simpl; [reflexivity|].
  destruct (f a); simpl; [destruct (g a)|]; rewrite IH; reflexivity.
Qed.

Lemma filter_all_true {A} (f : A -> bool) (l : list A) :
  (forall a, In a l -> f a = true) -> filter f l = l.
Proof.
  induction l as [|a l IH]; simpl; intros H; [reflexivity|].
  rewrite (H a (or_introl eq_refl)). f_equal. apply IH. intros b Hb.
  apply H. right. exact Hb.
Qed.

Lemma filter_idempotent {A} (f : A -> bool) (l : list A) :
  filter f (filter f l) = filter f l.
Proof.
  apply filter_all_true. intros a Ha. apply filter_In in Ha. apply Ha.
Qed.

(** The two-stage masking of the script is one filter by [keepsb]. *)
Lemma filtered_df_keepsb df s : filtered_df df s = filter (keepsb s) df.
Proof.
  unfold filtered_df, keepsb. destruct (selected_countries s) as [|c cs].
  - apply filter_ext. intros r. rewrite andb_true_r. reflexivity.
  - rewrite filter_filter_andb. reflexivity.
Qed.

Lemma filtered_df_In df s r :
  In r (filtered_df df s) <-> In r df /\ keeps s r.
Proof.
  rewrite filtered_df_keepsb, filter_In, keepsb_true. reflexivity.
Qed.

Lemma fold_min_le xs : forall x, fold_left Z.min xs x <= x /\
  forall y, In y xs -> fold_left Z.min xs x <= y.
Proof.
  induction xs as [|a xs IH]; simpl; intros x.
  - split; [lia | intros y []].
  - destruct (IH (Z.min x a)) as [H1 H2]. split; [lia|].
    intros y [<- | Hy]; [lia | apply H2, Hy].
Qed.

Lemma fold_max_ge xs : forall x, x <= fold_left Z.max xs x /\
  forall y, In y xs -> y <= fold_left Z.max xs x.
Proof.
  induction xs as [|a xs IH]; simpl; intros x.
  - split; [lia | intros y []].
  - destruct (IH (Z.max x a)) as [H1 H2]. split; [lia|].
    intros y [<- | Hy]; [lia | apply H2, Hy].
Qed.

Lemma In_present {A} (l : list (option A)) a : In a (present l) <-> In (Some a) l.
Proof.
  unfold present. rewrite in_flat_map. split.
  - intros ([b|] & Hin & Hb); simpl in Hb; [|contradiction].
    destruct Hb as [<- | []]. exact Hin.
  - intros H. exists (Some a). split; [exact H | left; reflexivity].
Qed.

(** The slider bounds enclose every present year. *)
Lemma full_year_range_bounds df lo hi r y :
  full_year_range df = inr (lo, hi) -> In r df -> Year r = Some y -> lo <= y <= hi.
Proof.
  unfold full_year_range. intros H Hr Hy.
  assert (Hin : In y (present (map Year df))).
  { apply In_present. rewrite <- Hy. apply in_map, Hr. }
  destruct (present (map Year df)) as [|x xs]; [destruct Hin|].
  simpl in H. injection H as <- <-.
  destruct (fold_min_le xs x) as [L1 L2], (fold_max_ge xs x) as [U1 U2].
  destruct Hin as [<- | Hin]; [lia|].
  split; [apply L2, Hin | apply U2, Hin].
Qed.

(** ** The filter

    C3, as amended.  [filtered_df] keeps a row iff its year is present and
    within the inclusive bounds and the allow-list is empty or holds the
    row's country; the output is the input with the other rows struck out,
    so the input order is kept; an empty allow-list imposes no country
    restriction; with the full year range and an empty allow-list the
    output is the rows whose year is present, which is the whole dataset
    when every row has one. *)
Theorem filtered_df_keeps_in_order (df : list Row) (s : FilterSpec) :
  (forall r, In r (filtered_df df s) <-> In r df /\ keeps s r) /\
  filtered_df df s = filter (keepsb s) df /\
  (forall lo hi,
      filtered_df df (mkFilterSpec (lo, hi) []) = filter (year_mask lo hi) df) /\
  (forall lo hi, full_year_range df = inr (lo, hi) ->
      filtered_df df (mkFilterSpec (lo, hi) []) = filter year_present df) /\
  (forall lo hi, full_year_range df = inr (lo, hi) ->
      (forall r, In r df -> Year r <> None) ->
      filtered_df df (mkFilterSpec (lo, hi) []) = df).
Proof.
  assert (Hfull : forall lo hi, full_year_range df = inr (lo, hi) ->
            filtered_df df (mkFilterSpec (lo, hi) []) = filter year_present df).
  { intros lo hi H. unfold filtered_df; simpl.
    assert (G : forall l, (forall r, In r l -> In r df) ->
                filter (year_mask lo hi) l = filter year_present l).
    { induction l as [|r l IH]; intros Hsub; simpl; [reflexivity|].
      rewrite IH by (intros r' Hr'; apply Hsub; right; exact Hr').
      assert (E : year_mask lo hi r = year_present r).
      { unfold year_mask, year_present. destruct (Year r) as [y|] eqn:Ey;
          [|reflexivity].
        pose proof (full_year_range_bounds df lo hi r y H
                      (Hsub r (or_introl eq_refl)) Ey) as B.
        apply andb_true_iff. rewrite !Z.leb_le. exact B. }
      rewrite E. reflexivity. }
    apply G. auto. }
  split; [intros r; apply filtered_df_In|].
  split; [apply filtered_df_keepsb|].
  split; [reflexivity|].
  split; [exact Hfull|].
  intros lo hi H Hall. rewrite (Hfull lo hi H).
  apply filter_all_true. intros r Hr. unfold year_present.
  specialize (Hall r Hr). destruct (Year r); [reflexivity | congruence].
Qed.

(** C3, the claim as written fails at the last clause: with the full year
    range and an empty allow-list, a dataset holding a row whose date did
    not parse does not come back whole. *)
Lemma full_range_filter_loses_undated_row :
  full_year_range [row_dated; row_undated] = inr (2000, 2000) /\
  filtered_df [row_dated; row_undated] (mkFilterSpec (2000, 2000) [])
    = [row_dated] /\
  filtered_df [row_dated; row_undated] (mkFilterSpec (2000, 2000) [])
    <> [row_dated; row_undated].
Proof.
  repeat split; try reflexivity. discriminate.
Qed.

(** C6.  The output of the filter is a subset of its input, every output
    row satisfies the predicate, and filtering twice with one FilterSpec
    is filtering once. *)
Theorem filtered_df_subset_idempotent (df : list Row) (s : FilterSpec) :
  (forall r, In r (filtered_df df s) -> In r df /\ keeps s r) /\
  incl (filtered_df df s) df /\
  filtered_df (filtered_df df s) s = filtered_df df s.
Proof.
  split; [intros r Hr; apply filtered_df_In, Hr|].
  split; [intros r Hr; apply filtered_df_In in Hr; apply Hr|].
  rewrite !filtered_df_keepsb. apply filter_idempotent.
Qed.

Lemma missing_year_not_kept df s r : Year r = None -> ~ In r (filtered_df df s).
Proof.
  intros Hy Hin. apply filtered_df_In in Hin.
  destruct Hin as [_ [(y & E & _) _]]. congruence.
Qed.

Lemma add_date_columns_Year c :
  Year (add_date_columns to_datetime c) = option_map ts_year (to_datetime (csv_Date c)).
Proof. reflexivity. Qed.

(** C10.  A row whose date string does not parse has no year and is in the
    output of no filter; so a filter returns the whole loaded dataset only
    when the date of every row parses. *)
Theorem unparsed_date_never_kept (csv : list CsvRow) (s : FilterSpec) :
  (forall c, to_datetime (csv_Date c) = None ->
     Year (add_date_columns to_datetime c) = None /\
     ~ In (add_date_columns to_datetime c)
          (filtered_df (load_data to_datetime csv) s)) /\
  (filtered_df (load_data to_datetime csv) s = load_data to_datetime csv ->
   forall c, In c csv -> to_datetime (csv_Date c) <> None).
Proof.
  split.
  - intros c Hc.
    assert (Hy : Year (add_date_columns to_datetime c) = None).
    { rewrite add_date_columns_Year, Hc. reflexivity. }
    split; [exact Hy | apply missing_year_not_kept, Hy].
  - intros Hall c Hc Hnone.
    apply (missing_year_not_kept (load_data to_datetime csv) s
             (add_date_columns to_datetime c)).
    + rewrite add_date_columns_Year, Hnone. reflexivity.
    + rewrite Hall. unfold load_data. apply in_map, Hc.
Qed.

(** ** Min-max normalisation *)









(** ** Correlation matrix *)



Lemma fold_welford_rows cx cy df : forall st,
  fold_left (welford_row cx cy) df st
  = fold_left (fun s p => welford_step s (fst p) (snd p)) (row_pairs cx cy df) st.
Proof.
  induction df as [|r df IH]; intros st; simpl; [reflexivity|].
  unfold welford_row at 2.
  destruct (col cx r) as [vx|], (col cy r) as [vy|]; simpl; apply IH.
Qed.

Lemma xstate_fold ps : forall st,
  xstate (fold_left (fun s p => welford_step s (fst p) (snd p)) ps st)
  = fold_left w1_step (map fst ps) (xstate st).
Proof.
  induction ps as [|p ps IH]; intros st; simpl; [reflexivity|].
  rewrite IH. reflexivity.
Qed.

Lemma ystate_fold ps : forall st,
  ystate (fold_left (fun s p => welford_step s (fst p) (snd p)) ps st)
  = fold_left w1_step (map snd ps) (ystate st).
Proof.
  induction ps as [|p ps IH]; intros st; simpl; [reflexivity|].
  rewrite IH. reflexivity.
Qed.



(** The increment of the sum of squared deviations. *)
Lemma w1_increment (v m k : Q) :
  ((v - (m + k * (v - m))) * (v - m) == (v - m) * (v - m) * (1 - k))%Q.
Proof. ring. Qed.

Lemma Qsquare_nonneg (d : Q) : (0 <= d * d)%Q.
Proof.
  destruct (Qlt_le_dec d 0) as [H|H].
  - setoid_replace (d * d)%Q with ((- d) * (- d))%Q by ring.
    apply Qmult_le_0_compat; lra.
  - apply Qmult_le_0_compat; assumption.
Qed.



(** On values that all equal the running mean the sum of squared
    deviations stays where it is. *)
Lemma w1_constant c vs : forall st,
  1 <= w1_count st -> (w1_mean st == c)%Q ->
  (forall v, In v vs -> v == c)%Q ->
  (w1_ss (fold_left w1_step vs st) == w1_ss st)%Q.
Proof.
  induction vs as [|v vs IH]; intros [[n m] s] Hn Hm Hall; simpl;
    [reflexivity|].
  unfold w1_count, w1_mean in *; simpl in *.
  assert (Hv : (v == c)%Q) by (apply Hall; left; reflexivity).
  rewrite IH.
  - unfold w1_ss; simpl. rewrite w1_increment, Hv, Hm. ring.
  - simpl. lia.
  - simpl. rewrite Hv, Hm. ring.
  - intros w Hw. apply Hall. right. exact Hw.
Qed.


(** From the initial state: zero for a constant column, and positive as
    soon as two observed values differ. *)
Lemma w1_constant_from_init vs :
  (forall v w, In v vs -> In w vs -> v == w)%Q ->
  (w1_ss (fold_left w1_step vs (0%Z, 0%Q, 0%Q)) == 0)%Q.
Proof.
  destruct vs as [|x vs]; intros Hall; simpl; [reflexivity|].
  rewrite (w1_constant x).
  - unfold w1_ss; simpl. field.
  - unfold w1_count; simpl. lia.
  - unfold w1_mean; simpl. field.
  - intros v Hv. apply Hall; [right; exact Hv | left; reflexivity].
Qed.



Lemma Qsqrt_exact_zero (z : Q) : (z == 0)%Q -> (Qsqrt_exact z == 0)%Q.
Proof.
  destruct z as [n d]. unfold Qsqrt_exact, Qeq; simpl. intros H.
  rewrite Z.mul_1_r in H. subst n. reflexivity.
Qed.

Lemma row_pairs_fst cx cy df v :
  In v (map fst (row_pairs cx cy df)) -> In (Some v) (map (col cx) df).
Proof.
  intros H. apply in_map_iff in H. destruct H as ([x y] & E & H). simpl in E. subst x.
  unfold row_pairs in H. apply in_flat_map in H. destruct H as (r & Hr & H).
  apply in_map_iff. exists r. split; [|exact Hr].
  destruct (col cx r) as [vx|], (col cy r) as [vy|]; simpl in H; try contradiction.
  destruct H as [E | []]. injection E as -> _. reflexivity.
Qed.

Lemma row_pairs_snd cx cy df v :
  In v (map snd (row_pairs cx cy df)) -> In (Some v) (map (col cy) df).
Proof.
  intros H. apply in_map_iff in H. destruct H as ([x y] & E & H). simpl in E. subst y.
  unfold row_pairs in H. apply in_flat_map in H. destruct H as (r & Hr & H).
  apply in_map_iff. exists r. split; [|exact Hr].
  destruct (col cx r) as [vx|], (col cy r) as [vy|]; simpl in H; try contradiction.
  destruct H as [E | []]. injection E as _ ->. reflexivity.
Qed.





Lemma welford_ssqdm_x cx cy df :
  ssqdm_x (fold_left (welford_row cx cy) df welford_init)
  = w1_ss (fold_left w1_step (map fst (row_pairs cx cy df)) (0%Z, 0%Q, 0%Q)).
Proof.
  rewrite fold_welford_rows.
  change (ssqdm_x ?s) with (w1_ss (xstate s)).
  rewrite xstate_fold. reflexivity.
Qed.

Lemma welford_ssqdm_y cx cy df :
  ssqdm_y (fold_left (welford_row cx cy) df welford_init)
  = w1_ss (fold_left w1_step (map snd (row_pairs cx cy df)) (0%Z, 0%Q, 0%Q)).
Proof.
  rewrite fold_welford_rows.
  change (ssqdm_y ?s) with (w1_ss (ystate s)).
  rewrite ystate_fold. reflexivity.
Qed.



(** A constant column leaves every entry of its row and of its column
    undefined. *)
Lemma nancorr_constant_x df cx cy :
  (forall z, z == 0 -> np_sqrt z == 0)%Q ->
  (forall v w, In (Some v) (map (col cx) df) -> In (Some w) (map (col cx) df) ->
               v == w)%Q ->
  nancorr_entry df cx cy = None.
Proof.
  intros Hsqrt Hconst. unfold nancorr_entry.
  set (st := fold_left (welford_row cx cy) df welford_init).
  destruct (nobs st <? 1); [reflexivity|].
  assert (Hz : (ssqdm_x st == 0)%Q).
  { unfold st. rewrite welford_ssqdm_x. apply w1_constant_from_init.
    intros v w Hv Hw. apply Hconst; eapply row_pairs_fst; eassumption. }
  assert (Hd : (np_sqrt (ssqdm_x st * ssqdm_y st) == 0)%Q).
  { apply Hsqrt. rewrite Hz. ring. }
  apply Qeq_bool_iff in Hd. rewrite Hd. reflexivity.
Qed.

Lemma nancorr_constant_y df cx cy :
  (forall z, z == 0 -> np_sqrt z == 0)%Q ->
  (forall v w, In (Some v) (map (col cy) df) -> In (Some w) (map (col cy) df) ->
               v == w)%Q ->
  nancorr_entry df cx cy = None.
Proof.
  intros Hsqrt Hconst. unfold nancorr_entry.
  set (st := fold_left (welford_row cx cy) df welford_init).
  destruct (nobs st <? 1); [reflexivity|].
  assert (Hz : (ssqdm_y st == 0)%Q).
  { unfold st. rewrite welford_ssqdm_y. apply w1_constant_from_init.
    intros v w Hv Hw. apply Hconst; eapply row_pairs_snd; eassumption. }
  assert (Hd : (np_sqrt (ssqdm_x st * ssqdm_y st) == 0)%Q).
  { apply Hsqrt. rewrite Hz. ring. }
  apply Qeq_bool_iff in Hd. rewrite Hd. reflexivity.
Qed.



(** ** Training and prediction *)

Lemma draw_permutation_seeded seed n g :
  draw_permutation (Some seed) n g
  = (fst (rng_permutation (RandomState_seed seed) n), g).
Proof. reflexivity. Qed.

(** With an integer [random_state] the split neither reads nor advances
    the process-wide generator. *)
Lemma train_test_split_seeded {A B} (X : list A) (y : list B) ts seed g g' :
  train_test_split X y ts (Some seed) g
  = (fst (train_test_split X y ts (Some seed) g'), g).
Proof.
  unfold train_test_split. rewrite !draw_permutation_seeded.
  destruct (length X - n_test_of ts (length X) =? 0)%nat; reflexivity.
Qed.

(** C9.  Two runs of [train_model] on the same data, started in whatever
    states of the process-wide random generator, produce the same
    training/evaluation partition and the same result: model (weights and
    bias), scaler, metrics, evaluation rows and predictions.  The call
    leaves the process-wide generator as it found it. *)
Theorem train_model_deterministic (data : list Row) (g1 g2 : RandomState) :
  partition_indices (length (dropna_features data)) g1
    = partition_indices (length (dropna_features data)) g2 /\
  training_rows data g1 = training_rows data g2 /\
  fst (train_model data g1) = fst (train_model data g2) /\
  snd (train_model data g1) = g1.
Proof.
  split; [reflexivity|]. split; [reflexivity|].
  unfold train_model.
  destruct (scaler_fit_transform (map snd (dropna_features data)))
    as [e | [sc Xs]]; [split; reflexivity|].
  rewrite (train_test_split_seeded _ _ _ _ g1 g2).
  destruct (train_test_split Xs _ 0.2 (Some 42) g2) as [[e | [[[Xtr Xte] ytr] yte]] g];
    split; reflexivity.
Qed.

Lemma bind_inr {A B} (c : result A) (k : A -> result B) b :
  bind c k = inr b -> exists a, c = inr a /\ k a = inr b.
Proof.
  destruct c as [e|a]; simpl; [discriminate|]. intros H. exists a. auto.
Qed.

Lemma scaler_fit_inr X sc :
  scaler_fit X = inr sc ->
  mean_ sc = map Qmean (columns (length features) X) /\
  var_ sc = map Qvar (columns (length features) X) /\
  scale_ sc = map (fun c => handle_zeros_in_scale (Qvar c) (Qmean c) (length X))
                 (columns (length features) X).
Proof.
  unfold scaler_fit. destruct X as [|x X]; [discriminate|].
  intros H. injection H as <-. repeat split; reflexivity.
Qed.

Lemma scaler_transform_inr sc X Xs :
  scaler_transform sc X = inr Xs -> Xs = map (scale_row sc) X.
Proof.
  unfold scaler_transform. destruct (forallb _ X); [|discriminate].
  intros H. injection H as <-. reflexivity.
Qed.

Lemma fit_and_score_inr sc Xtr Xte ytr yte t :
  fit_and_score sc Xtr Xte ytr yte = inr t ->
  ridge_fit 1 Xtr ytr = inr (model t) /\ scaler t = sc /\
  X_test t = Xte /\ y_test t = yte /\ y_pred t = ridge_predict (model t) Xte /\
  mean_absolute_error yte (y_pred t) = inr (MAE (metrics t)) /\
  R2 (metrics t) = 0.7134%Q.
Proof.
  unfold fit_and_score. intros H.
  apply bind_inr in H. destruct H as (m & Hm & H).
  apply bind_inr in H. destruct H as (mae & Hmae & H).
  apply bind_inr in H. destruct H as (mse & Hmse & H).
  injection H as <-. simpl. auto 10.
Qed.

(** What a successful [train_model] is made of. *)
Lemma train_model_inr data g t :
  fst (train_model data g) = inr t ->
  let X := map snd (dropna_features data) in
  let y := loc_target (map fst (dropna_features data)) data in
  let X_scaled := map (scale_row (scaler t)) X in
  scaler_fit X = inr (scaler t) /\
  fit_and_score (scaler t)
    (safe_indexing X_scaled (fst (partition_indices (length X) g)))
    (safe_indexing X_scaled (snd (partition_indices (length X) g)))
    (safe_indexing y (fst (partition_indices (length X) g)))
    (safe_indexing y (snd (partition_indices (length X) g))) = inr t.
Proof.
  intros H X y X_scaled. unfold train_model in H.
  fold X in H. fold y in H.
  destruct (scaler_fit_transform X) as [e | [sc Xs]] eqn:Efit;
    [discriminate|].
  unfold scaler_fit_transform in Efit.
  apply bind_inr in Efit. destruct Efit as (sc' & Hsc & Efit).
  apply bind_inr in Efit. destruct Efit as (Xs' & HXs & Efit).
  injection Efit as -> ->.
  apply scaler_transform_inr in HXs. subst Xs.
  unfold train_test_split in H. rewrite draw_permutation_seeded in H.
  rewrite length_map in H.
  destruct (length X - n_test_of 0.2 (length X) =? 0)%nat; [discriminate|].
  simpl in H.
  pose proof (fit_and_score_inr _ _ _ _ _ _ H) as (_ & Esc & _).
  unfold X_scaled. rewrite Esc. split; [exact Hsc|].
  unfold partition_indices. rewrite draw_permutation_seeded. exact H.
Qed.

Lemma mean_length_features X sc :
  scaler_fit X = inr sc -> length (mean_ sc) = 5%nat.
Proof.
  intros H. apply scaler_fit_inr in H. destruct H as (-> & _).
  unfold columns. rewrite !length_map, length_seq. reflexivity.
Qed.

(** C1, as amended.  The scaler is fitted on every row that is left after
    the rows with a missing feature are dropped, before the split: its
    mean and variance are those of the whole of [X], and [scale_] is the
    square root of that variance, or 1 where scikit-learn's tolerance
    [var <= n * eps * var + (n * mean * eps) ** 2] holds the column
    constant.  Each row is
    standardised as [(x - mean_) / scale_], the model is fitted on the
    training positions of the standardised rows, and the predict button
    applies the very same stored [mean_] and [scale_] to its input before
    the model's weights and bias. *)
Theorem scaler_statistics_stored_and_reused (data : list Row)
    (g : RandomState) (t : Trained) :
  fst (train_model data g) = inr t ->
  let X := map snd (dropna_features data) in
  let y := loc_target (map fst (dropna_features data)) data in
  let X_scaled := map (scale_row (scaler t)) X in
  mean_ (scaler t) = map Qmean (columns 5 X) /\
  var_ (scaler t) = map Qvar (columns 5 X) /\
  scale_ (scaler t)
    = map (fun c => if is_constant_feature (Qvar c) (Qmean c) (length X)
                    then 1%Q else np_sqrt (Qvar c)) (columns 5 X) /\
  (forall x, scale_row (scaler t) x
             = map2 (fun d s => d / s)%Q (map2 Qminus x (mean_ (scaler t)))
                    (scale_ (scaler t))) /\
  ridge_fit 1 (safe_indexing X_scaled (fst (partition_indices (length X) g)))
              (safe_indexing y (fst (partition_indices (length X) g)))
    = inr (model t) /\
  X_test t = safe_indexing X_scaled (snd (partition_indices (length X) g)) /\
  (forall a b c d e,
      predict_button (scaler t) (model t) a b c d e
      = inr (dot (scale_row (scaler t) [a; b; c; d; e]) (coef_ (model t))
             + intercept_ (model t))%Q).
Proof.
  intros H X y X_scaled.
  destruct (train_model_inr data g t H) as [Hsc Hfit].
  fold X in Hsc, Hfit. fold y in Hfit. fold X_scaled in Hfit.
  destruct (scaler_fit_inr _ _ Hsc) as (Hmean & Hvar & Hscale).
  destruct (fit_and_score_inr _ _ _ _ _ _ Hfit) as (Hridge & _ & Hte & _).
  repeat split; try assumption; try reflexivity.
  intros a b c d e. unfold predict_button, scaler_transform.
  rewrite (mean_length_features _ _ Hsc). reflexivity.
Qed.

(** The reported coefficient of determination does not depend on the
    data. *)
Lemma reported_R2_constant data g t :
  fst (train_model data g) = inr t -> R2 (metrics t) = 0.7134%Q.
Proof.
  intros H. destruct (train_model_inr data g t H) as [_ Hfit].
  apply fit_and_score_inr in Hfit. apply Hfit.
Qed.

(** ** Rendering on an empty selection *)

Lemma render_empty_raises df s selected_variable :
  filtered_df df s = [] ->
  render df s selected_variable
  = inl (TypeError "expected non-empty vector for x").
Proof.
  intros H. unfold render. rewrite H. reflexivity.
Qed.

(** Every order of a list is among [permutations]. *)
Lemma insert_everywhere_In a p1 p2 :
  In (p1 ++ a :: p2) (insert_everywhere a (p1 ++ p2)).
Proof.
  induction p1 as [|x p1 IH]; simpl.
  - destruct p2; simpl; auto.
  - right. apply in_map, IH.
Qed.

Lemma permutations_complete l : forall p, Permutation l p -> In p (permutations l).
Proof.
  induction l as [|a l IH]; intros p Hp.
  - apply Permutation_nil in Hp. subst. left. reflexivity.
  - assert (Ha : In a p) by (eapply Permutation_in; [exact Hp | left; reflexivity]).
    apply in_split in Ha. destruct Ha as (p1 & p2 & ->).
    apply Permutation_cons_app_inv in Hp.
    simpl. apply in_flat_map. exists (p1 ++ p2).
    split; [apply IH, Hp | apply insert_everywhere_In].
Qed.

(** ** Which rows reach the fit *)

Lemma all_present_Some l v : all_present l = Some v <-> l = map Some v.
Proof.
  revert v. induction l as [|[q|] l IH]; intros v; simpl.
  - split; [intros H; injection H as <-; reflexivity|].
    destruct v; [reflexivity | discriminate].
  - destruct (all_present l) as [w|] eqn:E; simpl.
    + split.
      * intros H. injection H as <-. simpl. f_equal. apply IH. reflexivity.
      * destruct v as [|q' v]; [discriminate|]. simpl. intros H.
        injection H as -> H. apply IH in H. injection H as ->. reflexivity.
    + split; [discriminate|].
      destruct v as [|q' v]; [discriminate|]. simpl. intros H.
      injection H as _ H. apply IH in H. discriminate.
  - split; [discriminate | destruct v; discriminate].
Qed.

Lemma In_combine_seq {A} (l : list A) : forall start i a,
  In (i, a) (combine (seq start (length l)) l)
  <-> (start <= i)%nat /\ nth_error l (i - start) = Some a.
Proof.
  induction l as [|x l IH]; intros start i a; simpl.
  - split; [intros [] | intros [_ H]]. destruct (i - start)%nat; discriminate.
  - rewrite IH. split.
    + intros [E | [Hle Hn]].
      * injection E as -> ->. rewrite Nat.sub_diag. split; [lia | reflexivity].
      * split; [lia|]. replace (i - start)%nat with (S (i - S start)) by lia.
        exact Hn.
    + intros [Hle Hn]. destruct (i - start)%nat as [|k] eqn:Ek.
      * left. injection Hn as ->. f_equal. lia.
      * right. split; [lia|]. replace (i - S start)%nat with k by lia. exact Hn.
Qed.

(** [data[features].dropna()] keeps the row at index [i] exactly when its
    five feature cells are present; the target cell plays no part. *)
Lemma dropna_features_spec data i v :
  In (i, v) (dropna_features data)
  <-> exists r, nth_error data i = Some r /\
                map (fun c => col c r) features = map Some v.
Proof.
  unfold dropna_features. rewrite in_flat_map. split.
  - intros ([j r] & Hin & H). apply In_combine_seq in Hin.
    destruct Hin as [_ Hn]. rewrite Nat.sub_0_r in Hn. simpl fst in H. simpl snd in H.
    destruct (all_present (map (fun c => col c r) features)) as [w|] eqn:E;
      [|destruct H].
    destruct H as [H | []]. injection H as -> ->.
    exists r. split; [exact Hn | apply all_present_Some, E].
  - intros (r & Hn & E). exists (i, r). split.
    + apply In_combine_seq. rewrite Nat.sub_0_r. split; [lia | exact Hn].
    + cbn [fst snd]. apply all_present_Some in E. rewrite E. left. reflexivity.
Qed.

(** The evaluation partition holds [ceil(n / 5)] of the [n] rows. *)
Lemma n_test_of_fifth n :
  n_test_of 0.2 n = Z.to_nat ((Z.of_nat n + 4) / 5).
Proof.
  unfold n_test_of. f_equal.
  unfold Qceiling.
  change (Qfloor (- (0.2 * inject_Z (Z.of_nat n))))
    with (- (2 * Z.of_nat n) / 10).
  pose proof (Z.div_mod (- (2 * Z.of_nat n)) 10 ltac:(lia)) as H1.
  pose proof (Z.mod_pos_bound (- (2 * Z.of_nat n)) 10 ltac:(lia)) as H2.
  pose proof (Z.div_mod (Z.of_nat n + 4) 5 ltac:(lia)) as H3.
  pose proof (Z.mod_pos_bound (Z.of_nat n + 4) 5 ltac:(lia)) as H4.
  lia.
Qed.

Lemma partition_sizes n g :
  length (fst (rng_permutation (RandomState_seed 42) n)) = n ->
  length (snd (partition_indices n g)) = n_test_of 0.2 n /\
  length (fst (partition_indices n g)) = (n - n_test_of 0.2 n)%nat.
Proof.
  intros Hlen. unfold partition_indices. rewrite draw_permutation_seeded.
  simpl fst. simpl snd.
  assert (Hle : (n_test_of 0.2 n <= n)%nat).
  { rewrite n_test_of_fifth.
    pose proof (Z.div_mod (Z.of_nat n + 4) 5 ltac:(lia)) as H3.
    pose proof (Z.mod_pos_bound (Z.of_nat n + 4) 5 ltac:(lia)) as H4.
    lia. }
  rewrite !length_firstn, length_skipn, Hlen. lia.
Qed.

(** * Further properties of the pipeline *)

(** ** The year slider *)

Lemma fold_min_In xs : forall x, In (fold_left Z.min xs x) (x :: xs).
Proof.
  induction xs as [|a xs IH]; intros x; simpl; [auto|].
  destruct (IH (Z.min x a)) as [E | H]; [|auto].
  rewrite <- E. destruct (Z.min_spec x a) as [[_ ->] | [_ ->]]; auto.
Qed.

Lemma fold_max_In xs : forall x, In (fold_left Z.max xs x) (x :: xs).
Proof.
  induction xs as [|a xs IH]; intros x; simpl; [auto|].
  destruct (IH (Z.max x a)) as [E | H]; [|auto].
  rewrite <- E. destruct (Z.max_spec x a) as [[_ ->] | [_ ->]]; auto.
Qed.

Lemma present_nil_iff {A} (l : list (option A)) :
  present l = [] <-> forall o, In o l -> o = None.
Proof.
  induction l as [|[a|] l IH]; simpl.
  - split; [intros _ o [] | reflexivity].
  - split; [discriminate|]. intros H. specialize (H (Some a) (or_introl eq_refl)).
    discriminate.
  - rewrite IH. split.
    + intros H o [<- | Ho]; [reflexivity | apply H, Ho].
    + intros H o Ho. apply H. right. exact Ho.
Qed.

Lemma In_Year_present df y :
  In y (present (map Year df)) <-> exists r, In r df /\ Year r = Some y.
Proof.
  rewrite In_present, in_map_iff. split; intros (r & H1 & H2); exists r; auto.
Qed.

(** The slider bounds exist unless no row has a year; they are years of
    rows of the dataset, in order, and every present year lies between
    them. *)
Theorem full_year_range_attained (df : list Row) :
  ((forall r, In r df -> Year r = None) <->
   full_year_range df = inl (ValueError "cannot convert float NaN to integer")) /\
  (forall lo hi, full_year_range df = inr (lo, hi) ->
     lo <= hi /\
     (exists r, In r df /\ Year r = Some lo) /\
     (exists r, In r df /\ Year r = Some hi) /\
     (forall r y, In r df -> Year r = Some y -> lo <= y <= hi)).
Proof.
  split.
  - unfold full_year_range. split.
    + intros H. assert (E : present (map Year df) = []).
      { apply present_nil_iff. intros o Ho. apply in_map_iff in Ho.
        destruct Ho as (r & <- & Hr). apply H, Hr. }
      rewrite E. reflexivity.
    + intros H r Hr. destruct (Year r) as [y|] eqn:Ey; [|reflexivity].
      assert (Hin : In y (present (map Year df)))
        by (apply In_Year_present; eauto).
      destruct (present (map Year df)); [destruct Hin | discriminate].
  - intros lo hi H.
    pose proof (fun r y => full_year_range_bounds df lo hi r y H) as B.
    unfold full_year_range in H.
    destruct (present (map Year df)) as [|x xs] eqn:E; [discriminate|].
    simpl in H. injection H as <- <-.
    pose proof (fold_min_In xs x) as Hlo. pose proof (fold_max_In xs x) as Hhi.
    rewrite <- E in Hlo, Hhi. apply In_Year_present in Hlo, Hhi.
    destruct Hlo as (rl & Hrl & El). destruct Hhi as (rh & Hrh & Eh).
    split; [apply (B rl _ Hrl El)|].
    split; [eauto|]. split; [eauto|]. exact B.
Qed.

(** ** Yearly group means *)

Lemma In_cons_iff {A} (z y : A) (l : list A) : In z (y :: l) <-> z = y \/ In z l.
Proof.
  simpl. split; (intros [H | H]; [left; symmetry; exact H | right; exact H]).
Qed.

Lemma Zinsert_unique_In y l z : In z (Zinsert_unique y l) <-> z = y \/ In z l.
Proof using.
  clear np_sqrt lstsq RandomState RandomState_seed rng_permutation to_datetime.
  induction l as [|x xs IH]; simpl Zinsert_unique.
  - rewrite In_cons_iff. reflexivity.
  - destruct (y <? x) eqn:E1; [apply In_cons_iff|].
    destruct (y =? x) eqn:E2.
    + apply Z.eqb_eq in E2. subst x. rewrite In_cons_iff. tauto.
    + rewrite In_cons_iff, IH, In_cons_iff. tauto.
Qed.

Lemma Zinsert_unique_sorted y l :
  StronglySorted Z.lt l -> StronglySorted Z.lt (Zinsert_unique y l).
Proof using.
  clear np_sqrt lstsq RandomState RandomState_seed rng_permutation to_datetime.
  induction l as [|x xs IH]; simpl; intros H.
  - constructor; constructor.
  - inversion H as [|? ? Hs Hall]; subst.
    destruct (y <? x) eqn:E1.
    + apply Z.ltb_lt in E1. constructor; [exact H|].
      constructor; [exact E1|]. rewrite Forall_forall in *. intros z Hz.
      specialize (Hall z Hz). lia.
    + destruct (y =? x) eqn:E2; [exact H|].
      apply Z.ltb_ge in E1. apply Z.eqb_neq in E2.
      constructor; [apply IH, Hs|]. rewrite Forall_forall in *.
      intros z Hz. apply Zinsert_unique_In in Hz.
      destruct Hz as [-> | Hz]; [lia | apply Hall, Hz].
Qed.

Lemma group_keys_In df y :
  In y (group_keys df) <-> exists r, In r df /\ Year r = Some y.
Proof using.
  clear np_sqrt lstsq RandomState RandomState_seed rng_permutation to_datetime.
  unfold group_keys. rewrite <- In_Year_present.
  induction (present (map Year df)) as [|a l IH]; simpl; [reflexivity|].
  rewrite Zinsert_unique_In, IH. split; (intros [H | H]; [left; symmetry; exact H | right; exact H]).
Qed.

Lemma group_keys_sorted df : StronglySorted Z.lt (group_keys df).
Proof using.
  clear np_sqrt lstsq RandomState RandomState_seed rng_permutation to_datetime.
  unfold group_keys. induction (present (map Year df)) as [|a l IH]; simpl.
  - constructor.
  - apply Zinsert_unique_sorted, IH.
Qed.

Lemma groupby_Year_mean_keys df : map fst (groupby_Year_mean df) = group_keys df.
Proof.
  unfold groupby_Year_mean. rewrite map_map. simpl. apply map_id.
Qed.

(** The yearly table has one row for each year that occurs in the rows
    given, in strictly ascending order; each row holds the column means
    over the rows of that year, of which there is at least one. *)
Theorem groupby_Year_mean_rows (df : list Row) :
  StronglySorted Z.lt (map fst (groupby_Year_mean df)) /\
  (forall y, In y (map fst (groupby_Year_mean df))
             <-> exists r, In r df /\ Year r = Some y) /\
  (forall y means, In (y, means) (groupby_Year_mean df) ->
     filter (has_year y) df <> [] /\
     means = map (fun c => series_mean (map (col c) (filter (has_year y) df)))
                 numeric_cols).
Proof using.
  clear np_sqrt lstsq RandomState RandomState_seed rng_permutation to_datetime.
  rewrite groupby_Year_mean_keys.
  split; [apply group_keys_sorted|]. split; [apply group_keys_In|].
  intros y means H. unfold groupby_Year_mean in H. apply in_map_iff in H.
  destruct H as (y' & E & Hy). injection E as -> <-. split; [|reflexivity].
  apply group_keys_In in Hy. destruct Hy as (r & Hr & Ey).
  intros Hnil.
  assert (Hin : In r (filter (has_year y) df)).
  { apply filter_In. split; [exact Hr|]. unfold has_year. rewrite Ey.
    apply Z.eqb_refl. }
  rewrite Hnil in Hin. destruct Hin.
Qed.

Lemma group_keys_single l y :
  l <> [] -> (forall r, In r l -> Year r = Some y) -> group_keys l = [y].
Proof.
  intros Hne Hall. unfold group_keys.
  assert (E : forall l', (forall r, In r l' -> Year r = Some y) ->
                present (map Year l') = repeat y (length l')).
  { induction l' as [|r l' IH]; intros H; simpl; [reflexivity|].
    rewrite (H r (or_introl eq_refl)). simpl. f_equal. apply IH.
    intros r' Hr'. apply H. right. exact Hr'. }
  rewrite (E l Hall). destruct l as [|r l]; [contradiction|]. simpl.
  clear. induction (length l) as [|n IH]; simpl; [reflexivity|].
  rewrite IH. simpl. rewrite Z.ltb_irrefl, Z.eqb_refl. reflexivity.
Qed.

(** A selection confined to one year gives a yearly table of exactly one
    row: that year with the column means over the whole selection. *)
Theorem single_year_selection_one_group (df : list Row) (y : Z)
    (countries : list string) :
  filtered_df df (mkFilterSpec (y, y) countries) <> [] ->
  groupby_Year_mean (filtered_df df (mkFilterSpec (y, y) countries))
  = [(y, map (fun c => series_mean
                         (map (col c) (filtered_df df (mkFilterSpec (y, y) countries))))
             numeric_cols)].
Proof.
  intros Hne. set (sel := filtered_df df (mkFilterSpec (y, y) countries)) in *.
  assert (Hall : forall r, In r sel -> Year r = Some y).
  { intros r Hr. apply filtered_df_In in Hr.
    destruct Hr as [_ [(y' & E & Hy) _]]. simpl in Hy. rewrite E. f_equal. lia. }
  unfold groupby_Year_mean. rewrite (group_keys_single sel y Hne Hall). simpl.
  rewrite (filter_all_true (has_year y) sel); [reflexivity|].
  intros r Hr. unfold has_year. rewrite (Hall r Hr). apply Z.eqb_refl.
Qed.


(** ** The trend line on a non-empty selection *)

Lemma filtered_df_years df s r : In r (filtered_df df s) -> Year r <> None.
Proof.
  intros H. apply filtered_df_In in H. destruct H as [_ [(y & E & _) _]].
  congruence.
Qed.

Lemma groupby_Year_mean_nonempty df s :
  filtered_df df s <> [] -> groupby_Year_mean (filtered_df df s) <> [].
Proof using.
  clear np_sqrt lstsq RandomState RandomState_seed rng_permutation to_datetime.
  intros Hne Hnil. destruct (filtered_df df s) as [|r l] eqn:E; [contradiction|].
  assert (Hr : In r (filtered_df df s)) by (rewrite E; left; reflexivity).
  pose proof (filtered_df_years df s r Hr) as Hy.
  destruct (Year r) as [y|] eqn:Ey; [|contradiction].
  assert (Hin : In y (group_keys (r :: l))).
  { apply group_keys_In. exists r. split; [left; reflexivity | exact Ey]. }
  rewrite <- groupby_Year_mean_keys, Hnil in Hin. destruct Hin.
Qed.

Lemma np_polyfit_solves x y :
  x <> [] -> length x = length y -> np_polyfit x y = lstsq x y.
Proof.
  intros Hx Hlen. unfold np_polyfit. destruct x as [|a x]; [contradiction|].
  rewrite Hlen, Nat.eqb_refl. reflexivity.
Qed.

(** On a non-empty selection [np.polyfit] gets one x and one y per year
    and at least one year, so neither of numpy's guards fires: the pass
    fails exactly when the least-squares solve does, with its exception,
    and otherwise yields one trend value per year and the correlation
    matrix of the selection. *)
Theorem render_nonempty_selection (df : list Row) (s : FilterSpec)
    (selected_variable : NumCol) :
  filtered_df df s <> [] ->
  let yr := groupby_Year_mean (filtered_df df s) in
  let years := map (fun g => inject_Z (fst g)) yr in
  np_polyfit years (yearly_col selected_variable yr)
    = lstsq years (yearly_col selected_variable yr) /\
  (forall e, render df s selected_variable = inl e
             <-> lstsq years (yearly_col selected_variable yr) = inl e) /\
  (forall z, lstsq years (yearly_col selected_variable yr) = inr z ->
     exists c, render df s selected_variable = inr c /\
               yearly c = yr /\
               trend c = map (poly1d z) years /\
               length (trend c) = length yr /\
               length (normalized c) = 6%nat /\
               heatmap c = corr_matrix (filtered_df df s)).
Proof using.
  intros Hne yr years.
  assert (Hpoly : np_polyfit years (yearly_col selected_variable yr)
                  = lstsq years (yearly_col selected_variable yr)).
  { apply np_polyfit_solves.
    - pose proof (groupby_Year_mean_nonempty df s Hne) as Hyr. fold yr in Hyr.
      unfold years. destruct yr; [contradiction | discriminate].
    - unfold years, yearly_col. rewrite !length_map. reflexivity. }
  split; [exact Hpoly|].
  unfold render. fold yr. fold years. rewrite Hpoly.
  destruct (lstsq years (yearly_col selected_variable yr)) as [e|z]; simpl.
  - split; [intros e'; split; intros H; injection H as <-; reflexivity|].
    intros z H. discriminate.
  - split; [split; discriminate|]. intros z' H. injection H as <-.
    eexists. split; [reflexivity|]. simpl.
    repeat split. rewrite length_map. unfold years. rewrite length_map. reflexivity.
Qed.

(** ** Monthly pattern *)

Lemma Sinsert_unique_In m l z : In z (Sinsert_unique m l) <-> z = m \/ In z l.
Proof using.
  clear np_sqrt lstsq RandomState RandomState_seed rng_permutation to_datetime.
  induction l as [|x xs IH]; simpl Sinsert_unique.
  - rewrite In_cons_iff. reflexivity.
  - destruct (String.ltb m x); [apply In_cons_iff|].
    destruct (String.eqb m x) eqn:E2.
    + apply String.eqb_eq in E2. subst x. rewrite In_cons_iff. tauto.
    + rewrite In_cons_iff, IH, In_cons_iff. tauto.
Qed.

Lemma month_keys_In df m :
  In m (month_keys df) <-> exists r, In r df /\ MonthName r = Some m.
Proof using.
  clear np_sqrt lstsq RandomState RandomState_seed rng_permutation to_datetime.
  unfold month_keys.
  assert (E : In m (present (map MonthName df))
              <-> exists r, In r df /\ MonthName r = Some m).
  { rewrite In_present, in_map_iff.
    split; intros (r & H1 & H2); exists r; auto. }
  rewrite <- E. clear E.
  induction (present (map MonthName df)) as [|a l IH]; simpl; [reflexivity|].
  rewrite Sinsert_unique_In, IH. split; (intros [H | H]; [left; symmetry; exact H | right; exact H]).
Qed.

Lemma lookup_label_map (f : string -> float) keys k :
  lookup_label k (map (fun m => (m, f m)) keys)
  = if in_dec string_dec k keys then Some (f k) else None.
Proof.
  induction keys as [|x keys IH]; simpl; [reflexivity|].
  destruct (String.eqb k x) eqn:E.
  - apply String.eqb_eq in E. subst x.
    destruct (string_dec k k); [reflexivity | contradiction].
  - apply String.eqb_neq in E. rewrite IH.
    destruct (string_dec x k); [congruence|].
    destruct (in_dec string_dec k keys); reflexivity.
Qed.

(** The monthly chart always has the twelve months Jan..Dec in calendar
    order, whatever months the selection holds; each bar is the mean of the
    chosen column over the rows of that month, and NaN for a month without
    rows. *)
Theorem monthly_calendar_order (filtered : list Row) (c : NumCol) :
  map fst (monthly filtered c) = monthly_order /\
  monthly filtered c
  = map (fun m => (m, series_mean (map (col c) (filter (has_month_name m) filtered))))
        monthly_order /\
  (forall m v, In (m, v) (monthly filtered c) ->
     (forall r, In r filtered -> MonthName r <> Some m) -> v = None).
Proof using.
  clear np_sqrt lstsq RandomState RandomState_seed rng_permutation to_datetime.
  assert (E : monthly filtered c
    = map (fun m => (m, series_mean (map (col c) (filter (has_month_name m) filtered))))
          monthly_order).
  { unfold monthly, reindex, groupby_MonthName_mean. apply map_ext. intros m.
    rewrite (lookup_label_map
               (fun m => series_mean (map (col c) (filter (has_month_name m) filtered)))).
    destruct (in_dec string_dec m (month_keys filtered)) as [Hin | Hout];
      [reflexivity|].
    replace (filter (has_month_name m) filtered) with (@nil Row); [reflexivity|].
    symmetry. destruct (filter (has_month_name m) filtered) as [|r l] eqn:Ef;
      [reflexivity|]. exfalso. apply Hout. apply month_keys_In.
    assert (Hr : In r (filter (has_month_name m) filtered))
      by (rewrite Ef; left; reflexivity).
    apply filter_In in Hr. destruct Hr as [Hr Hm]. exists r. split; [exact Hr|].
    unfold has_month_name in Hm. destruct (MonthName r) as [m'|]; [|discriminate].
    apply String.eqb_eq in Hm. congruence. }
  split; [rewrite E, map_map; apply map_id|]. split; [exact E|].
  intros m v Hin Hnone. rewrite E in Hin. apply in_map_iff in Hin.
  destruct Hin as (m' & Em & _). injection Em as -> <-.
  replace (filter (has_month_name m) filtered) with (@nil Row); [reflexivity|].
  symmetry. destruct (filter (has_month_name m) filtered) as [|r l] eqn:Ef;
    [reflexivity|]. exfalso.
  assert (Hr : In r (filter (has_month_name m) filtered))
    by (rewrite Ef; left; reflexivity).
  apply filter_In in Hr. destruct Hr as [Hr Hm]. apply (Hnone r Hr).
  unfold has_month_name in Hm. destruct (MonthName r) as [m'|]; [|discriminate].
  apply String.eqb_eq in Hm. congruence.
Qed.


(** ** Violin plots: the sampled years *)

Lemma stride_from_length {A} (step : nat) (l : list A) : forall skip,
  (1 <= step)%nat -> (skip < step)%nat ->
  let k := length (stride_from step skip l) in
  (k = 0 /\ length l <= skip)%nat \/
  (1 <= k /\ skip + (k - 1) * step < length l <= skip + k * step)%nat.
Proof.
  induction l as [|x t IH]; intros skip Hs Hk; simpl.
  - left. split; [reflexivity | lia].
  - destruct skip as [|j]; simpl.
    + right. destruct (IH (step - 1)%nat Hs ltac:(lia)) as [[E Hl] | [Hk' Hl]].
      * rewrite E. simpl. lia.
      * split; [lia|].
        replace (S (length (stride_from step (step - 1) t)) - 1)%nat
          with (S (length (stride_from step (step - 1) t) - 1)) by lia.
        simpl. nia.
    + destruct (IH j Hs ltac:(lia)) as [[E Hl] | [Hk' Hl]].
      * left. split; [exact E | lia].
      * right. split; [lia | lia].
Qed.

Lemma stride_from_incl {A} (step : nat) (l : list A) : forall skip x,
  In x (stride_from step skip l) -> In x l.
Proof.
  induction l as [|a t IH]; intros skip x H; simpl in *; [exact H|].
  destruct skip as [|j].
  - destruct H as [-> | H]; [left; reflexivity | right; eapply IH, H].
  - right. eapply IH, H.
Qed.

Lemma stride_from_sorted {A} (R : A -> A -> Prop) (step : nat) (l : list A) :
  forall skip, StronglySorted R l -> StronglySorted R (stride_from step skip l).
Proof.
  induction l as [|a t IH]; intros skip H; simpl; [constructor|].
  inversion H as [|? ? Hs Hall]; subst.
  destruct skip as [|j]; [|apply IH, Hs].
  constructor; [apply IH, Hs|]. rewrite Forall_forall in *. intros x Hx.
  apply Hall. eapply stride_from_incl, Hx.
Qed.

(** The violin chart shows every year of the selection when there are at
    most six; when there are more it shows every [n // 6]-th year starting
    with the first, which is between six and eleven years.  The years
    shown are ascending and each has at least one row in the selection. *)
Theorem sample_years_thinned (df : list Row) (s : FilterSpec) :
  let filtered := filtered_df df s in
  let years := group_keys filtered in
  ((length years <= 6)%nat -> sample_years filtered = years) /\
  ((6 < length years)%nat ->
     (6 <= length (sample_years filtered) <= 11)%nat /\
     sample_years filtered = slice_step (length years / 6) years) /\
  (length (sample_years filtered) <= 11)%nat /\
  hd_error (sample_years filtered) = hd_error years /\
  StronglySorted Z.lt (sample_years filtered) /\
  (forall y, In y (sample_years filtered) ->
     exists r, In r filtered /\ Year r = Some y).
Proof using.
  clear np_sqrt lstsq RandomState RandomState_seed rng_permutation to_datetime.
  intros filtered years. unfold sample_years. fold years.
  destruct (6 <? length years)%nat eqn:E.
  - apply Nat.ltb_lt in E.
    assert (Hstep : (1 <= length years / 6)%nat).
    { apply Nat.div_le_lower_bound; lia. }
    rewrite (Nat.max_r 1 (length years / 6)) by lia.
    pose proof (Nat.div_mod (length years) 6 ltac:(lia)) as Hdm.
    pose proof (Nat.mod_upper_bound (length years) 6 ltac:(lia)) as Hm.
    set (step := (length years / 6)%nat) in *.
    assert (Hlen : (6 <= length (slice_step step years) <= 11)%nat).
    { unfold slice_step.
      destruct (stride_from_length step years 0 Hstep ltac:(lia))
        as [[_ Hl] | [Hk Hl]]; [lia|].
      set (k := length (stride_from step 0 years)) in *. nia. }
    split; [lia|]. split; [intros _; split; [exact Hlen | reflexivity]|].
    split; [lia|].
    split; [unfold slice_step; destruct years; reflexivity|].
    split; [apply stride_from_sorted, group_keys_sorted|].
    intros y Hy. apply group_keys_In. eapply stride_from_incl, Hy.
  - apply Nat.ltb_ge in E.
    split; [reflexivity|]. split; [lia|]. split; [lia|]. split; [reflexivity|].
    split; [apply group_keys_sorted|]. intros y Hy. apply group_keys_In, Hy.
Qed.

(** ** Correlation details table *)

Lemma corr_pairs_columns df :
  corr_pairs (corr_matrix df)
  = map (fun ab => {| Variable_1 := fst ab;
                      Variable_2 := snd ab;
                      Correlation := corr df (fst ab) (snd ab);
                      Strength := strength (corr df (fst ab) (snd ab)) |})
        column_pairs.
Proof. reflexivity. Qed.

Lemma column_pairs_In a b :
  In (a, b) column_pairs <-> (col_index a < col_index b)%nat.
Proof.
  assert (Hall : forall c, In c numeric_cols) by (intros c; destruct c; simpl; auto 10).
  unfold column_pairs. rewrite filter_In. cbn [fst snd]. rewrite Nat.ltb_lt. split.
  - intros [_ H]. exact H.
  - intros H. split; [|exact H]. apply in_prod; apply Hall.
Qed.

Lemma strength_thresholds q :
  (strength (Some q) = "Strong"%string <-> (1 # 2 < Qabs q)%Q) /\
  (strength (Some q) = "Moderate"%string <-> (3 # 10 < Qabs q <= 1 # 2)%Q) /\
  (strength (Some q) = "Weak"%string <-> (Qabs q <= 3 # 10)%Q).
Proof.
  unfold strength, abs_gt.
  assert (H5 : Qle_bool (Qabs q) 0.5 = true <-> (Qabs q <= 1 # 2)%Q).
  { rewrite Qle_bool_iff. assert (E : (0.5 == 1 # 2)%Q) by reflexivity.
    rewrite E. reflexivity. }
  assert (H3 : Qle_bool (Qabs q) 0.3 = true <-> (Qabs q <= 3 # 10)%Q).
  { rewrite Qle_bool_iff. reflexivity. }
  destruct (Qle_bool (Qabs q) 0.5) eqn:E5; simpl.
  - apply proj1 in H5. specialize (H5 eq_refl).
    destruct (Qle_bool (Qabs q) 0.3) eqn:E3; simpl.
    + apply proj1 in H3. specialize (H3 eq_refl).
      repeat split; try discriminate; intros; try assumption; try lra.
    + assert (~ (Qabs q <= 3 # 10)%Q) by (intros H; apply H3 in H; discriminate).
      repeat split; try discriminate; intros; lra.
  - assert (~ (Qabs q <= 1 # 2)%Q) by (intros H; apply H5 in H; discriminate).
    repeat split; try discriminate; intros; lra.
Qed.

(** The details table lists every pair of distinct columns exactly once,
    fifteen rows, the column that comes first in [numeric_cols] first;
    each row carries the matrix entry of the pair and a label that is
    Strong above 0.5 in absolute value, Moderate above 0.3 and Weak
    otherwise, Weak also when the entry is NaN; so every row of a column
    that is constant in the selection reads NaN and Weak (the square root
    being 0 on 0). *)
Theorem corr_pairs_table (df : list Row) :
  length (corr_pairs (corr_matrix df)) = 15%nat /\
  NoDup (map (fun p => (Variable_1 p, Variable_2 p)) (corr_pairs (corr_matrix df))) /\
  (forall a b, (col_index a < col_index b)%nat <->
     In {| Variable_1 := a; Variable_2 := b; Correlation := corr df a b;
           Strength := strength (corr df a b) |} (corr_pairs (corr_matrix df))) /\
  (forall p, In p (corr_pairs (corr_matrix df)) ->
     (col_index (Variable_1 p) < col_index (Variable_2 p))%nat /\
     Correlation p = corr df (Variable_1 p) (Variable_2 p) /\
     Strength p = strength (Correlation p) /\
     (Correlation p = None -> Strength p = "Weak"%string) /\
     (forall q, Correlation p = Some q ->
        (Strength p = "Strong"%string <-> (1 # 2 < Qabs q)%Q) /\
        (Strength p = "Moderate"%string <-> (3 # 10 < Qabs q <= 1 # 2)%Q) /\
        (Strength p = "Weak"%string <-> (Qabs q <= 3 # 10)%Q))) /\
  ((forall z, z == 0 -> np_sqrt z == 0)%Q ->
   forall c,
     (forall v w, In (Some v) (map (col c) df) -> In (Some w) (map (col c) df) ->
                  v == w)%Q ->
     forall p, In p (corr_pairs (corr_matrix df)) ->
       Variable_1 p = c \/ Variable_2 p = c ->
       Correlation p = None /\ Strength p = "Weak"%string).
Proof.
  assert (Hin : forall p, In p (corr_pairs (corr_matrix df)) ->
            (col_index (Variable_1 p) < col_index (Variable_2 p))%nat /\
            Correlation p = corr df (Variable_1 p) (Variable_2 p) /\
            Strength p = strength (Correlation p)).
  { intros p Hp. rewrite corr_pairs_columns in Hp. apply in_map_iff in Hp.
    destruct Hp as ([a b] & <- & Hab). simpl.
    split; [apply column_pairs_In, Hab | split; reflexivity]. }
  split; [reflexivity|].
  split.
  { change (NoDup column_pairs).
    unfold column_pairs. simpl.
    repeat (constructor; [simpl; intuition discriminate|]). constructor. }
  split.
  { intros a b. rewrite corr_pairs_columns. split.
    - intros H. apply column_pairs_In in H.
      apply (in_map (fun ab => {| Variable_1 := fst ab; Variable_2 := snd ab;
                                  Correlation := corr df (fst ab) (snd ab);
                                  Strength := strength (corr df (fst ab) (snd ab)) |})
                    _ (a, b)), H.
    - intros H. apply in_map_iff in H. destruct H as ([a' b'] & E & Hab).
      simpl in E. injection E as -> -> _ _. apply column_pairs_In, Hab. }
  split.
  { intros p Hp. destruct (Hin p Hp) as (H1 & H2 & H3).
    split; [exact H1|]. split; [exact H2|]. split; [exact H3|].
    split; [intros E; rewrite H3, E; reflexivity|].
    intros q E. rewrite H3, E. apply strength_thresholds. }
  intros Hsqrt c Hconst p Hp Hc. destruct (Hin p Hp) as (_ & H2 & H3).
  assert (E : Correlation p = None).
  { rewrite H2. destruct Hc as [<- | <-].
    - unfold corr. destruct (col_index (Variable_2 p) <=? col_index (Variable_1 p))%nat;
        [apply nancorr_constant_x | apply nancorr_constant_y]; assumption.
    - unfold corr. destruct (col_index (Variable_2 p) <=? col_index (Variable_1 p))%nat;
        [apply nancorr_constant_y | apply nancorr_constant_x]; assumption. }
  split; [exact E | rewrite H3, E; reflexivity].
Qed.


(** ** Means, sums and their bounds *)

Lemma Qsum_cons a l : (Qsum (a :: l) == a + Qsum l)%Q.
Proof. unfold Qsum. cbn [fold_right]. apply Qred_correct. Qed.

Lemma count_S (n : nat) :
  (inject_Z (Z.of_nat (S n)) == inject_Z (Z.of_nat n) + 1)%Q.
Proof. rewrite Nat2Z.inj_succ. unfold Z.succ. rewrite inject_Z_plus. reflexivity. Qed.

Lemma count_nonneg (n : nat) : (0 <= inject_Z (Z.of_nat n))%Q.
Proof. unfold Qle. simpl. lia. Qed.


Lemma Qsum_bounds l lo hi :
  (forall v, In v l -> lo <= v <= hi)%Q ->
  (lo * inject_Z (Z.of_nat (length l)) <= Qsum l
   <= hi * inject_Z (Z.of_nat (length l)))%Q.
Proof.
  induction l as [|a l IH]; intros H.
  - change (inject_Z (Z.of_nat (length (@nil Q)))) with 0%Q.
    change (Qsum []) with 0%Q. lra.
  - rewrite Qsum_cons. cbn [length]. rewrite count_S.
    destruct (H a (or_introl eq_refl)) as [Ha1 Ha2].
    destruct IH as [I1 I2]; [intros v Hv; apply H; right; exact Hv|].
    split; lra.
Qed.


Lemma Qsum_zero l : (forall v, In v l -> v == 0)%Q -> (Qsum l == 0)%Q.
Proof.
  intros H. destruct (Qsum_bounds l 0 0) as [B1 B2].
  - intros v Hv. rewrite (H v Hv). split; apply Qle_refl.
  - lra.
Qed.

(** ** Training: too few rows, the partition, the metrics *)

Lemma dropna_features_row_length data x :
  In x (map snd (dropna_features data)) -> length x = 5%nat.
Proof.
  intros H. apply in_map_iff in H. destruct H as ([i v] & <- & H).
  apply dropna_features_spec in H. destruct H as (r & _ & E).
  apply (f_equal (@length _)) in E. rewrite !length_map in E. simpl in E.
  simpl. lia.
Qed.

Lemma scaler_fit_transform_rows X :
  X <> [] -> (forall x, In x X -> length x = 5%nat) ->
  exists sc, scaler_fit X = inr sc /\
             scaler_fit_transform X = inr (sc, map (scale_row sc) X).
Proof.
  intros Hne Hlen. unfold scaler_fit_transform.
  destruct (scaler_fit X) as [e|sc] eqn:E.
  - unfold scaler_fit in E. destruct X; [contradiction | discriminate].
  - exists sc. split; [reflexivity|]. simpl. unfold scaler_transform.
    rewrite (mean_length_features X sc E).
    replace (forallb (fun x => (length x =? 5)%nat) X) with true; [reflexivity|].
    symmetry. apply forallb_forall. intros x Hx. apply Nat.eqb_eq, Hlen, Hx.
Qed.

(** With fewer than two rows that have all five features the call ends
    in a [ValueError] and fits nothing: with none the scaler rejects the
    empty array, with one the split would leave the training set empty. *)
Theorem train_model_needs_two_rows (data : list Row) (g : RandomState) :
  (length (dropna_features data) < 2)%nat ->
  exists msg, train_model data g = (inl (ValueError msg), g).
Proof.
  intros H. unfold train_model.
  pose proof (dropna_features_row_length data) as Hlen.
  destruct (map snd (dropna_features data)) as [|x [|x' X]] eqn:E.
  - eexists. reflexivity.
  - destruct (scaler_fit_transform_rows [x]) as (sc & _ & ->);
      [discriminate | exact Hlen |].
    eexists. reflexivity.
  - apply (f_equal (@length _)) in E. rewrite length_map in E. simpl in E. lia.
Qed.

(** When the generator draws a true permutation of the positions, the two
    partitions are disjoint and together hold every position exactly once;
    the evaluation partition has [ceil(n / 5)] positions. *)
Theorem partition_indices_cover (n : nat) (g : RandomState) :
  Permutation (seq 0 n) (fst (rng_permutation (RandomState_seed 42) n)) ->
  let train := fst (partition_indices n g) in
  let test := snd (partition_indices n g) in
  Permutation (seq 0 n) (test ++ train) /\
  NoDup (test ++ train) /\
  (forall i, In i test -> ~ In i train) /\
  (forall i, (i < n)%nat <-> In i test \/ In i train) /\
  length test = Z.to_nat ((Z.of_nat n + 4) / 5) /\
  length train = (n - length test)%nat.
Proof.
  intros Hperm train test.
  assert (Hlen : length (fst (rng_permutation (RandomState_seed 42) n)) = n).
  { rewrite <- (Permutation_length Hperm). apply length_seq. }
  destruct (partition_sizes n g Hlen) as [Hte Htr].
  fold test in Hte. fold train in Htr.
  assert (E : test ++ train = fst (rng_permutation (RandomState_seed 42) n)).
  { unfold test, train, partition_indices. rewrite draw_permutation_seeded.
    cbn [fst snd].
    rewrite (firstn_all2 (n := n - n_test_of 0.2 n));
      [apply firstn_skipn | rewrite length_skipn, Hlen; lia]. }
  assert (Hnd : NoDup (test ++ train)).
  { rewrite E. eapply Permutation_NoDup; [exact Hperm | apply seq_NoDup]. }
  split; [rewrite E; exact Hperm|]. split; [exact Hnd|].
  split.
  { intros i Hi Hi'. apply in_split in Hi. destruct Hi as (l1 & l2 & El).
    rewrite El in Hnd. rewrite <- app_assoc in Hnd. simpl in Hnd.
    apply NoDup_remove_2 in Hnd. apply Hnd. rewrite !in_app_iff. auto. }
  split.
  { intros i. rewrite <- in_app_iff, E. split.
    - intros Hi. eapply Permutation_in; [exact Hperm|]. apply in_seq. lia.
    - intros Hi. apply Permutation_sym in Hperm.
      apply (Permutation_in _ Hperm) in Hi. apply in_seq in Hi. lia. }
  split; [rewrite Hte; apply n_test_of_fifth|].
  rewrite Htr, Hte. reflexivity.
Qed.







Lemma In_map2 {A B C} (f : A -> B -> C) l l' c :
  In c (map2 f l l') -> exists a b, In a l /\ In b l' /\ c = f a b.
Proof.
  revert l'. induction l as [|a l IH]; intros [|b l'] H; simpl in H;
    try contradiction.
  destruct H as [<- | H].
  - exists a, b. simpl. auto.
  - destruct (IH l' H) as (a' & b' & Ha & Hb & E). exists a', b'. simpl. auto.
Qed.






(** ** Standardisation: constant columns and the mean vector *)



Lemma In_map2_diag {A C} (f : A -> A -> C) l c :
  In c (map2 f l l) -> exists a, In a l /\ c = f a a.
Proof.
  induction l as [|a l IH]; simpl; [intros []|].
  intros [<- | H]; [exists a; auto|].
  destruct (IH H) as (a' & Ha & E). exists a'. auto.
Qed.




Lemma scaler_lengths X sc :
  scaler_fit X = inr sc -> length (mean_ sc) = 5%nat /\ length (scale_ sc) = 5%nat.
Proof.
  intros H. split; [apply (mean_length_features X sc H)|].
  apply scaler_fit_inr in H. destruct H as (_ & _ & ->).
  unfold columns. rewrite !length_map, length_seq. reflexivity.
Qed.


(** The predict button at the stored mean vector returns the model's
    intercept: every standardised input is 0 there.  No entry of the
    stored scale is 0 as long as the square root of a nonzero variance is
    not 0, so the standardisation never divides by zero. *)
Theorem predict_at_stored_mean (data : list Row) (g : RandomState) (t : Trained) :
  fst (train_model data g) = inr t ->
  (exists m0 m1 m2 m3 m4 q,
     mean_ (scaler t) = [m0; m1; m2; m3; m4] /\
     predict_button (scaler t) (model t) m0 m1 m2 m3 m4 = inr q /\
     (q == intercept_ (model t))%Q) /\
  ((forall v, ~ v == 0 -> ~ np_sqrt v == 0)%Q ->
   forall s, In s (scale_ (scaler t)) -> ~ (s == 0)%Q).
Proof.
  intros H. destruct (train_model_inr data g t H) as [Hsc _].
  destruct (scaler_lengths _ _ Hsc) as [Lm Ls]. split.
  - destruct (mean_ (scaler t)) as [|m0 [|m1 [|m2 [|m3 [|m4 [|]]]]]] eqn:Em;
      try discriminate.
    exists m0, m1, m2, m3, m4. eexists. split; [reflexivity|].
    unfold predict_button, scaler_transform. rewrite Em. cbn [forallb length Nat.eqb andb].
    cbn [bind ret map ridge_predict hd]. split; [reflexivity|].
    assert (Hz : (dot (scale_row (scaler t) [m0; m1; m2; m3; m4]) (coef_ (model t))
                  == 0)%Q).
    { unfold dot. apply Qsum_zero. intros v Hv. apply In_map2 in Hv.
      destruct Hv as (z & w & Hz & _ & ->).
      unfold scale_row in Hz. apply In_map2 in Hz.
      destruct Hz as (d & s & Hd & _ & ->). rewrite Em in Hd.
      apply In_map2_diag in Hd. destruct Hd as (a & _ & ->).
      unfold Qdiv. ring. }
    rewrite Hz. ring.
  - intros Hsqrt s Hs. apply scaler_fit_inr in Hsc. destruct Hsc as (_ & _ & Hscale).
    rewrite Hscale in Hs. apply in_map_iff in Hs. destruct Hs as (col & <- & _).
    unfold handle_zeros_in_scale, is_constant_feature.
    set (n := inject_Z (Z.of_nat (length (map snd (dropna_features data))))).
    set (m := Qmean col).
    destruct (Qle_bool (Qvar col)
                (n * float64_eps * Qvar col
                 + n * m * float64_eps * (n * m * float64_eps))) eqn:E.
    + discriminate.
    + apply Hsqrt. intros Hv.
      assert (Hle : (Qvar col
                     <= n * float64_eps * Qvar col
                        + n * m * float64_eps * (n * m * float64_eps))%Q).
      { rewrite Hv. pose proof (Qsquare_nonneg (n * m * float64_eps)).
        setoid_replace (n * float64_eps * 0)%Q with 0%Q by ring. lra. }
      apply Qle_bool_iff in Hle. congruence.
Qed.


(** ** Widening the selection *)

(** A wider year range, a longer country list or no country list at all
    never loses a row: the narrower selection is contained in the wider
    one, and it is what the narrower filter makes of the wider one. *)
Theorem filtered_df_widening (df : list Row) (s s' : FilterSpec) :
  fst (year_range s') <= fst (year_range s) ->
  snd (year_range s) <= snd (year_range s') ->
  (selected_countries s' = [] \/
   (selected_countries s <> [] /\
    incl (selected_countries s) (selected_countries s'))) ->
  incl (filtered_df df s) (filtered_df df s') /\
  filtered_df (filtered_df df s') s = filtered_df df s.
Proof.
  intros Hlo Hhi Hc.
  assert (Hk : forall r, keeps s r -> keeps s' r).
  { intros r [(y & Ey & Hy) Hr]. split; [exists y; split; [exact Ey | lia]|].
    destruct Hc as [Hc | [Hne Hincl]]; [left; exact Hc|].
    destruct Hr as [Hr | (c & Ec & Hin)]; [contradiction|].
    right. exists c. split; [exact Ec | apply Hincl, Hin]. }
  split.
  - intros r Hr. apply filtered_df_In in Hr. apply filtered_df_In.
    split; [apply Hr | apply Hk, Hr].
  - rewrite !filtered_df_keepsb, filter_filter_andb. apply filter_ext.
    intros r. destruct (keepsb s r) eqn:E; [|apply andb_false_r].
    apply keepsb_true in E. apply Hk in E. apply keepsb_true in E.
    rewrite E. reflexivity.
Qed.


End Pipeline.

(** * Concrete runs

    The library parameters are instantiated: [Qsqrt_exact] for the square
    root, [sample_to_datetime] for the date parser, and a generator that
    draws a given order. *)

(** The filter on two dated rows, full year range, no country selected. *)
Lemma filtered_df_keeps_in_order_witness :
  full_year_range [row_dated; row_later] = inr (2000, 2001) /\
  (forall r, In r [row_dated; row_later] -> Year r <> None) /\
  filtered_df [row_dated; row_later] (mkFilterSpec (2000, 2001) [])
    = [row_dated; row_later].
Proof.
  assert (H1 : full_year_range [row_dated; row_later] = inr (2000, 2001))
    by reflexivity.
  assert (H2 : forall r, In r [row_dated; row_later] -> Year r <> None).
  { intros r [<- | [<- | []]]; discriminate. }
  split; [exact H1|]. split; [exact H2|].
  exact (proj2 (proj2 (proj2 (proj2
           (filtered_df_keeps_in_order [row_dated; row_later]
              (mkFilterSpec (2000, 2001) []))))) 2000 2001 H1 H2).
Defined.

(** A row kept by a filter on years 2000-2001 and country Kenya. *)
Lemma filtered_df_subset_idempotent_witness :
  In row_later
     (filtered_df [row_dated; row_later; row_undated]
                  (mkFilterSpec (2000, 2001) ["Kenya"%string])) /\
  In row_later [row_dated; row_later; row_undated] /\
  keeps (mkFilterSpec (2000, 2001) ["Kenya"%string]) row_later.
Proof.
  assert (H : In row_later
                (filtered_df [row_dated; row_later; row_undated]
                             (mkFilterSpec (2000, 2001) ["Kenya"%string])))
    by (left; reflexivity).
  split; [exact H|].
  exact (proj1 (filtered_df_subset_idempotent
                  [row_dated; row_later; row_undated]
                  (mkFilterSpec (2000, 2001) ["Kenya"%string])) row_later H).
Defined.

(** The row whose date is the string [not a date]. *)
Lemma unparsed_date_never_kept_witness :
  sample_to_datetime (csv_Date csv_undated) = None /\
  ~ In (add_date_columns sample_to_datetime csv_undated)
       (filtered_df (load_data sample_to_datetime [csv_dated; csv_undated])
                    (mkFilterSpec (2000, 2001) [])).
Proof.
  assert (H : sample_to_datetime (csv_Date csv_undated) = None) by reflexivity.
  split; [exact H|].
  exact (proj2 (proj1 (unparsed_date_never_kept sample_to_datetime
                         [csv_dated; csv_undated]
                         (mkFilterSpec (2000, 2001) [])) csv_undated H)).
Defined.



(** [train_model] on [five_rows] with the order [an_order_of_five]. *)
Lemma scaler_statistics_stored_and_reused_witness :
  fst (train_model Qsqrt_exact (list nat) (fixed_seed an_order_of_five)
         fixed_permutation five_rows an_order_of_five)
    = inr five_rows_trained /\
  mean_ (scaler five_rows_trained)
    = map Qmean (columns 5 (map snd (dropna_features five_rows))) /\
  forall a b c d e,
    predict_button (scaler five_rows_trained) (model five_rows_trained) a b c d e
    = inr (dot (scale_row (scaler five_rows_trained) [a; b; c; d; e])
               (coef_ (model five_rows_trained))
           + intercept_ (model five_rows_trained))%Q.
Proof.
  assert (H : fst (train_model Qsqrt_exact (list nat) (fixed_seed an_order_of_five)
                     fixed_permutation five_rows an_order_of_five)
              = inr five_rows_trained) by (vm_compute; reflexivity).
  split; [exact H|].
  pose proof (scaler_statistics_stored_and_reused Qsqrt_exact (list nat)
                (fixed_seed an_order_of_five) fixed_permutation
                five_rows an_order_of_five five_rows_trained H) as T.
  split; [exact (proj1 T) | exact (proj2 (proj2 (proj2 (proj2 (proj2 (proj2 T))))))].
Defined.

(** C1, the claim as written fails.  On [five_rows] every feature column
    has mean 2 over all five rows, and 2 is the stored [mean_]; with the
    order [an_order_of_five] row 1 is held out and the means over the four
    training rows are 9/4, 1, 9/4, 9/4, 9/4; and whichever order the
    generator draws, no column mean over the training rows is the stored
    one. *)
Lemma scaler_mean_is_not_training_mean :
  fst (train_model Qsqrt_exact (list nat) (fixed_seed an_order_of_five)
         fixed_permutation five_rows an_order_of_five)
    = inr five_rows_trained /\
  mean_ (scaler five_rows_trained) = [2; 2; 2; 2; 2]%Q /\
  map Qmean (columns 5 (training_rows (list nat) (fixed_seed an_order_of_five)
                          fixed_permutation five_rows an_order_of_five))
    = [9 # 4; 1; 9 # 4; 9 # 4; 9 # 4]%Q /\
  forallb (fun p =>
    match fst (train_model Qsqrt_exact (list nat) (fixed_seed p)
                 fixed_permutation five_rows p) with
    | inr t =>
        forallb (fun j =>
          Qeq_bool (nth j (mean_ (scaler t)) 0%Q) 2 &&
          negb (Qeq_bool
                  (Qmean (column j (training_rows (list nat) (fixed_seed p)
                                      fixed_permutation five_rows p)))
                  (nth j (mean_ (scaler t)) 0%Q)))
          (seq 0 5)
    | inl _ => false
    end) (permutations (seq 0 5)) = true.
Proof. vm_compute. repeat split; reflexivity. Qed.

(** Without a seed the split would follow the process-wide generator: two
    states of it give two partitions.  The seed 42 of [train_model] is
    what makes the partition a function of the data. *)
Lemma unseeded_split_follows_generator :
  fst (train_test_split (list nat) (fixed_seed []) fixed_permutation
         [10; 11; 12; 13; 14]%nat [20; 21; 22; 23; 24]%nat 0.2 None
         [0; 1; 2; 3; 4]%nat)
    = inr ([11; 12; 13; 14], [10], [21; 22; 23; 24], [20])%nat /\
  fst (train_test_split (list nat) (fixed_seed []) fixed_permutation
         [10; 11; 12; 13; 14]%nat [20; 21; 22; 23; 24]%nat 0.2 None
         [4; 3; 2; 1; 0]%nat)
    = inr ([13; 12; 11; 10], [14], [23; 22; 21; 20], [24])%nat.
Proof. split; reflexivity. Qed.

(** C2.  On [ten_rows], whichever two rows are held out, the reported R²
    is the constant 0.7134 and the R² of the predictions on the held-out
    rows is another number; with rows 8 and 1 held out it is
    1938409180299551 / 2787147834968025, a little under 0.6955. *)
Theorem reported_R2_differs_from_evaluation_R2 :
  match fst (train_model Qsqrt_exact (list nat) (fixed_seed an_order_of_ten)
               fixed_permutation ten_rows an_order_of_ten) with
  | inr t =>
      R2 (metrics t) = 0.7134%Q /\
      float_eqb (r2_score (present (y_test t)) (y_pred t))
                (Some (1938409180299551 # 2787147834968025)) = true
  | inl _ => False
  end /\
  forallb (fun p =>
    match fst (train_model Qsqrt_exact (list nat) (fixed_seed p)
                 fixed_permutation ten_rows p) with
    | inr t =>
        Qeq_bool (R2 (metrics t)) 0.7134 &&
        negb (float_eqb (r2_score (present (y_test t)) (y_pred t))
                        (Some (R2 (metrics t))))
    | inl _ => false
    end) (orders_by_leading_pair 10) = true.
Proof. vm_compute. repeat split; reflexivity. Qed.

(** C5.  On [rows_with_gaps] the row without CO2 Emissions (index 1) is
    dropped and the row without Temperature (index 3) is not: its NaN
    target stays in [y], and whichever order the generator draws the
    training call ends in an exception. *)
Theorem missing_target_row_not_dropped :
  map fst (dropna_features rows_with_gaps) = [0; 2; 3; 4; 5]%nat /\
  loc_target (map fst (dropna_features rows_with_gaps)) rows_with_gaps
    = [Some 10; Some 12; None; Some 16; Some 18]%Q /\
  forallb (fun p =>
    raises (fst (train_model Qsqrt_exact (list nat) (fixed_seed p)
                   fixed_permutation rows_with_gaps p)))
    (permutations (seq 0 5)) = true.
Proof. vm_compute. repeat split; reflexivity. Qed.

(** C4.  Year range 2000-2000 and country Kenya select no row of
    [[row_dated; row_later]].  The cards and the yearly table degrade (NaN,
    empty table) and the correlation matrix is all NaN, and the pass over
    the page ends in the [TypeError] of [np.polyfit], whatever the square
    root and the least-squares solver are. *)
Theorem empty_selection_trendline_raises :
  let s := mkFilterSpec (2000, 2000) ["Kenya"%string] in
  filtered_df [row_dated; row_later] s = [] /\
  groupby_Year_mean (filtered_df [row_dated; row_later] s) = [] /\
  (forall np_sqrt,
      avg_temp (key_metrics np_sqrt (filtered_df [row_dated; row_later] s)) = None /\
      temp_range (key_metrics np_sqrt (filtered_df [row_dated; row_later] s))
        = (None, None) /\
      co2_std (key_metrics np_sqrt (filtered_df [row_dated; row_later] s)) = None /\
      forall a b, corr np_sqrt (filtered_df [row_dated; row_later] s) a b = None) /\
  forall np_sqrt lstsq selected_variable,
    render np_sqrt lstsq [row_dated; row_later] s selected_variable
    = inl (TypeError "expected non-empty vector for x").
Proof.
  intros s.
  assert (E : filtered_df [row_dated; row_later] s = []) by reflexivity.
  split; [exact E|]. rewrite E.
  split; [reflexivity|].
  split; [intros np_sqrt; repeat split; intros a b; destruct a, b; reflexivity|].
  intros np_sqrt lstsq sel. apply render_empty_raises. exact E.
Qed.

(** ** Concrete runs of the further properties *)

(** The slider bounds of two dated rows. *)
Lemma full_year_range_attained_witness :
  full_year_range [row_dated; row_later] = inr (2000, 2001) /\
  2000 <= 2001 /\
  (exists r, In r [row_dated; row_later] /\ Year r = Some 2000) /\
  (exists r, In r [row_dated; row_later] /\ Year r = Some 2001).
Proof.
  assert (H : full_year_range [row_dated; row_later] = inr (2000, 2001))
    by reflexivity.
  split; [exact H|].
  destruct (proj2 (full_year_range_attained [row_dated; row_later]) 2000 2001 H)
    as (A & B & C & _).
  split; [exact A|]. split; [exact B | exact C].
Defined.

(** The yearly table of two rows of different years. *)
Lemma groupby_Year_mean_rows_witness :
  In (2001, [Some 20; Some 410; Some 2; Some 40; Some 70; Some 7]%Q)
     (groupby_Year_mean [row_dated; row_later]) /\
  filter (has_year 2001) [row_dated; row_later] <> [].
Proof.
  assert (H : In (2001, [Some 20; Some 410; Some 2; Some 40; Some 70; Some 7]%Q)
                 (groupby_Year_mean [row_dated; row_later]))
    by (right; left; reflexivity).
  split; [exact H|].
  exact (proj1 (proj2 (proj2 (groupby_Year_mean_rows [row_dated; row_later]))
                  2001 _ H)).
Defined.

(** Year 2000 alone, no country selected. *)
Lemma single_year_selection_one_group_witness :
  filtered_df [row_dated; row_later] (mkFilterSpec (2000, 2000) []) <> [] /\
  length (groupby_Year_mean
            (filtered_df [row_dated; row_later] (mkFilterSpec (2000, 2000) [])))
  = 1%nat.
Proof.
  assert (H : filtered_df [row_dated; row_later] (mkFilterSpec (2000, 2000) []) <> [])
    by discriminate.
  split; [exact H|].
  rewrite (single_year_selection_one_group [row_dated; row_later] 2000 [] H).
  reflexivity.
Defined.

(** Two years selected, a solver that answers slope 0 and intercept 1. *)
Lemma render_nonempty_selection_witness :
  filtered_df [row_dated; row_later] (mkFilterSpec (2000, 2001) []) <> [] /\
  exists c, render Qsqrt_exact (fun _ _ => inr (0, 1)%Q) [row_dated; row_later]
                   (mkFilterSpec (2000, 2001) []) cTemperature = inr c /\
            trend c = [1; 1]%Q.
Proof.
  assert (H : filtered_df [row_dated; row_later] (mkFilterSpec (2000, 2001) []) <> [])
    by discriminate.
  split; [exact H|].
  destruct (proj2 (proj2 (render_nonempty_selection Qsqrt_exact
                            (fun _ _ => inr (0, 1)%Q) [row_dated; row_later]
                            (mkFilterSpec (2000, 2001) []) cTemperature H))
              (0, 1)%Q eq_refl) as (c & Hc & _ & Ht & _).
  exists c. split; [exact Hc|]. rewrite Ht. reflexivity.
Defined.

(** February has no row among a January and a July row. *)
Lemma monthly_calendar_order_witness :
  In ("Feb"%string, None) (monthly [row_dated; row_later] cTemperature) /\
  (forall r, In r [row_dated; row_later] -> MonthName r <> Some "Feb"%string) /\
  (@None Q) = None.
Proof.
  assert (H1 : In ("Feb"%string, None) (monthly [row_dated; row_later] cTemperature))
    by (right; left; reflexivity).
  assert (H2 : forall r, In r [row_dated; row_later]
                         -> MonthName r <> Some "Feb"%string).
  { intros r [<- | [<- | []]]; discriminate. }
  split; [exact H1|]. split; [exact H2|].
  exact (proj2 (proj2 (monthly_calendar_order [row_dated; row_later] cTemperature))
           "Feb"%string None H1 H2).
Defined.

(** Two years in the selection: nothing is thinned. *)
Lemma sample_years_thinned_witness :
  (length (group_keys (filtered_df [row_dated; row_later]
                                   (mkFilterSpec (2000, 2001)%Z []))) <= 6)%nat /\
  sample_years (filtered_df [row_dated; row_later] (mkFilterSpec (2000, 2001) []))
  = [2000; 2001].
Proof.
  assert (H : (length (group_keys (filtered_df [row_dated; row_later]
                                     (mkFilterSpec (2000, 2001)%Z []))) <= 6)%nat)
    by (vm_compute; repeat constructor).
  split; [exact H|].
  rewrite (proj1 (sample_years_thinned [row_dated; row_later]
                    (mkFilterSpec (2000, 2001) [])) H).
  reflexivity.
Defined.

(** Sea Level Rise is 1 on both rows: its pair with Temperature. *)
Lemma corr_pairs_table_witness :
  (forall z, z == 0 -> Qsqrt_exact z == 0)%Q /\
  (forall v w, In (Some v) (map (col cSea_Level_Rise) [row_dated; row_undated]) ->
               In (Some w) (map (col cSea_Level_Rise) [row_dated; row_undated]) ->
               v == w)%Q /\
  In (mkCorrPair cTemperature cSea_Level_Rise None "Weak")
     (corr_pairs (corr_matrix Qsqrt_exact [row_dated; row_undated])) /\
  Correlation (mkCorrPair cTemperature cSea_Level_Rise None "Weak") = None /\
  Strength (mkCorrPair cTemperature cSea_Level_Rise None "Weak") = "Weak"%string.
Proof.
  assert (H2 : forall v w,
             In (Some v) (map (col cSea_Level_Rise) [row_dated; row_undated]) ->
             In (Some w) (map (col cSea_Level_Rise) [row_dated; row_undated]) ->
             (v == w)%Q).
  { intros v w [E | [E | []]] [E' | [E' | []]];
      injection E as <-; injection E' as <-; reflexivity. }
  assert (H3 : In (mkCorrPair cTemperature cSea_Level_Rise None "Weak")
                  (corr_pairs (corr_matrix Qsqrt_exact [row_dated; row_undated])))
    by (right; left; reflexivity).
  split; [exact Qsqrt_exact_zero|]. split; [exact H2|]. split; [exact H3|].
  exact (proj2 (proj2 (proj2 (proj2
           (corr_pairs_table Qsqrt_exact [row_dated; row_undated]))))
           Qsqrt_exact_zero cSea_Level_Rise H2 _ H3 (or_intror eq_refl)).
Defined.

(** One complete row is not enough to train on. *)
Lemma train_model_needs_two_rows_witness :
  (length (dropna_features [row_dated]) < 2)%nat /\
  exists msg,
    train_model Qsqrt_exact (list nat) (fixed_seed [0%nat]) fixed_permutation
                [row_dated] [0%nat]
    = (inl (ValueError msg), [0%nat]).
Proof.
  assert (H : (length (dropna_features [row_dated]) < 2)%nat)
    by (vm_compute; repeat constructor).
  split; [exact H|].
  exact (train_model_needs_two_rows Qsqrt_exact (list nat) (fixed_seed [0%nat])
           fixed_permutation [row_dated] [0%nat] H).
Defined.

(** Five positions drawn in the order [an_order_of_five]. *)
Lemma partition_indices_cover_witness :
  Permutation (seq 0 5)
    (fst (fixed_permutation (fixed_seed an_order_of_five 42) 5)) /\
  snd (partition_indices (list nat) (fixed_seed an_order_of_five)
         fixed_permutation 5 an_order_of_five) = [1]%nat /\
  NoDup (snd (partition_indices (list nat) (fixed_seed an_order_of_five)
                fixed_permutation 5 an_order_of_five)
         ++ fst (partition_indices (list nat) (fixed_seed an_order_of_five)
                   fixed_permutation 5 an_order_of_five)).
Proof.
  assert (H : Permutation (seq 0 5)
                (fst (fixed_permutation (fixed_seed an_order_of_five 42) 5))).
  { apply NoDup_Permutation.
    - apply seq_NoDup.
    - repeat (constructor; [simpl; intuition discriminate|]). constructor.
    - intros x. simpl. intuition. }
  split; [exact H|]. split; [reflexivity|].
  exact (proj1 (proj2 (partition_indices_cover (list nat)
                         (fixed_seed an_order_of_five) fixed_permutation 5
                         an_order_of_five H))).
Defined.



(** The predict button at the stored mean of [five_rows_trained]. *)
Lemma predict_at_stored_mean_witness :
  fst (train_model Qsqrt_exact (list nat) (fixed_seed an_order_of_five)
         fixed_permutation five_rows an_order_of_five)
    = inr five_rows_trained /\
  exists m0 m1 m2 m3 m4 q,
    mean_ (scaler five_rows_trained) = [m0; m1; m2; m3; m4] /\
    predict_button (scaler five_rows_trained) (model five_rows_trained)
                   m0 m1 m2 m3 m4 = inr q /\
    (q == intercept_ (model five_rows_trained))%Q.
Proof.
  assert (H : fst (train_model Qsqrt_exact (list nat) (fixed_seed an_order_of_five)
                     fixed_permutation five_rows an_order_of_five)
              = inr five_rows_trained) by (vm_compute; reflexivity).
  split; [exact H|].
  exact (proj1 (predict_at_stored_mean Qsqrt_exact (list nat)
                  (fixed_seed an_order_of_five) fixed_permutation five_rows
                  an_order_of_five five_rows_trained H)).
Defined.

(** Chile in 2000 inside every country in 2000-2001. *)
Lemma filtered_df_widening_witness :
  2000 <= 2000 /\ 2000 <= 2001 /\
  incl (filtered_df [row_dated; row_later; row_undated]
                    (mkFilterSpec (2000, 2000) ["Chile"%string]))
       (filtered_df [row_dated; row_later; row_undated]
                    (mkFilterSpec (2000, 2001) [])).
Proof.
  assert (H1 : 2000 <= 2000) by discriminate.
  assert (H2 : 2000 <= 2001) by discriminate.
  split; [exact H1|]. split; [exact H2|].
  exact (proj1 (filtered_df_widening [row_dated; row_later; row_undated]
                  (mkFilterSpec (2000, 2000) ["Chile"%string])
                  (mkFilterSpec (2000, 2001) []) H1 H2 (or_introl eq_refl))).
Defined.



(** The tolerance of the scaler at work: five rows of a column with mean
    1000000 and variance 1e-20 count as constant, and the stored scale is
    1 whatever the square root. *)
Example handle_zeros_in_scale_tolerance np_sqrt :
  is_constant_feature (1 # 100000000000000000000) 1000000 5 = true /\
  handle_zeros_in_scale np_sqrt (1 # 100000000000000000000) 1000000 5 = 1%Q.
Proof. split; reflexivity. Qed.
